(** * EMR_KERBEROS_ENABLED: a shallow embedding of the Config rule

    The development follows [python/EMR_KERBEROS_ENABLED/EMR_KERBEROS_ENABLED.py]:
    the parameter validation ([evaluate_parameters], [is_valid_hostname]),
    the per-cluster decision procedure and its loop ([evaluate_compliance],
    [get_all_cluster]), the clean-up of stale evaluations
    ([clean_up_old_evaluations]) and the part of [lambda_handler] that
    filters and submits evaluations.  It also covers [is_applicable], the
    error responses ([build_error_response] and its two callers,
    [is_internal_error]) and [lambda_handler] as a whole on a scheduled
    notification, the trigger of the rule.

    Modelling choices.
    - A Python [str] is a Rocq [string]; its characters are read as the
      code points 0..255 (Latin-1).  The character classes of
      [str.isnumeric], [str.isupper] and of the regular expression are the
      Unicode ones restricted to that range.
    - JSON values are [pyval]: [None], booleans, integers, strings and
      objects (a [gmap] from keys to values).  Arrays and non-integer
      numbers are not part of the value model.
    - Python exceptions are values of [exn]; a computation that may raise
      returns a [res].
    - Calls to the AWS clients are recorded in a log that is threaded
      through the computation ([M]); what the services answer is a fixed
      snapshot ([emr_client], [config_client]). *)

From stdpp Require Import gmap strings list fin_maps pretty.
From Stdlib Require Import Ascii String ZArith Lia.
From Equations Require Import Equations.

#[local] Set Warnings "-register-all,-clear-no-such-hyp".
#[local] Open Scope string_scope.
#[local] Open Scope list_scope.

(** ** Python values and exceptions *)

Inductive pyval : Type :=
  | VNone
  | VBool (b : bool)
  | VInt (z : Z)
  | VStr (s : string)
  | VDict (m : gmap string pyval).

Inductive exn : Type :=
  | KeyError (key : pyval)
  | IndexError
  | TypeError
  | AttributeError
  | ValueError (msg : string)
  | ClientError (code : string).

Inductive res (A : Type) : Type :=
  | Ok (a : A)
  | Raise (e : exn).
Arguments Ok {A} a.
Arguments Raise {A} e.

#[global] Instance res_ret : MRet res := fun A a => Ok a.
#[global] Instance res_bind : MBind res := fun A B f r =>
  match r with
  | Ok a => f a
  | Raise e => Raise e
  end.
#[global] Instance res_fmap : FMap res := fun A B f r =>
  match r with
  | Ok a => Ok (f a)
  | Raise e => Raise e
  end.

(** ** Strings *)

Module PyStr.

Definition ord (c : ascii) : N := N_of_ascii c.

Definition between (lo hi : N) (c : ascii) : bool :=
  ((lo <=? ord c) && (ord c <=? hi))%N.

(** Characters with a Unicode numeric value: the digits, the
    superscripts one, two, three and the three vulgar fractions. *)
Definition numeric_char (c : ascii) : bool :=
  between 48 57 c
  || (ord c =? 178)%N || (ord c =? 179)%N || (ord c =? 185)%N
  || between 188 190 c.

(** The Unicode property Uppercase below 256. *)
Definition upper_char (c : ascii) : bool :=
  between 65 90 c || between 192 214 c || between 216 222 c.

(** The Unicode property Lowercase below 256. *)
Definition lower_char (c : ascii) : bool :=
  between 97 122 c
  || (ord c =? 170)%N || (ord c =? 181)%N || (ord c =? 186)%N
  || between 223 246 c || between 248 255 c.

Fixpoint chars (s : string) : list ascii :=
  match s with
  | EmptyString => []
  | String c s' => c :: chars s'
  end.

Fixpoint of_chars (l : list ascii) : string :=
  match l with
  | [] => EmptyString
  | c :: l' => String c (of_chars l')
  end.

(** [len(s)] *)
Definition len (s : string) : nat := String.length s.

(** [s.isnumeric()]: at least one character, all of them numeric. *)
Definition isnumeric (s : string) : bool :=
  negb (bool_decide (s = "")) && forallb numeric_char (chars s).

(** [s.isupper()]: no lowercase character and at least one uppercase
    one. *)
Definition isupper (s : string) : bool :=
  negb (existsb lower_char (chars s)) && existsb upper_char (chars s).

(** [s[-1]], which raises IndexError on the empty string. *)
Definition last_char (s : string) : res ascii :=
  match last (chars s) with
  | Some c => Ok c
  | None => Raise IndexError
  end.

(** [s[:-1]] *)
Definition drop_last (s : string) : string :=
  of_chars (removelast (chars s)).

(** [s.split(sep)] for a one-character separator: every occurrence
    splits, and the result is never empty. *)
Fixpoint split (sep : ascii) (s : string) : list string :=
  match s with
  | EmptyString => [EmptyString]
  | String c s' =>
      if bool_decide (c = sep) then EmptyString :: split sep s'
      else match split sep s' with
           | h :: t => String c h :: t
           | [] => [String c EmptyString]
           end
  end.

(** [sub in s] for strings *)
Fixpoint contains (sub s : string) : bool :=
  String.prefix sub s ||
  match s with
  | EmptyString => false
  | String _ s' => contains sub s'
  end.

End PyStr.

(** ** The regular expression of [is_valid_hostname]

    [re.compile("(?!-)[A-Z\d-]{1,63}(?<!-)$", re.IGNORECASE)], used
    through [allowed.match(x)], which anchors the pattern at the start of
    [x]. *)

Module Regex.
Import PyStr.

Definition hyphen : ascii := "-"%char.
Definition newline : ascii := ascii_of_N 10.

(** [[A-Z\d-]] under IGNORECASE *)
Definition in_class (c : ascii) : bool :=
  between 65 90 c || between 97 122 c || between 48 57 c
  || bool_decide (c = hyphen).

(** [(?!-)]: the text ahead does not start with a hyphen. *)
Definition not_hyphen_ahead (l : list ascii) : bool :=
  match l with
  | c :: _ => negb (bool_decide (c = hyphen))
  | [] => true
  end.

(** [(?<!-)]: the text consumed so far does not end with a hyphen. *)
Definition not_hyphen_behind (l : list ascii) : bool :=
  match last l with
  | Some c => negb (bool_decide (c = hyphen))
  | None => true
  end.

(** [$] without MULTILINE: the end of the text, or just before a
    newline that ends the text. *)
Definition at_end (l : list ascii) : bool :=
  match l with
  | [] => true
  | [c] => bool_decide (c = newline)
  | _ => false
  end.

(** One way of matching [{1,63}]: exactly [n] characters of the class. *)
Definition match_with (n : nat) (l : list ascii) : bool :=
  (n <=? List.length l)%nat
  && forallb in_class (take n l)
  && not_hyphen_behind (take n l)
  && at_end (drop n l).

(** [allowed.match(x)] as a truth value: some repetition count between
    1 and 63 matches. *)
Definition allowed_match (x : string) : bool :=
  not_hyphen_ahead (chars x)
  && existsb (fun n => match_with n (chars x)) (seq 1 63).

End Regex.

(** ** Events, evaluations and the AWS clients *)

(** The fields of the Lambda event that the rule reads;
    [notificationCreationTime] is
    [str(json.loads(event['invokingEvent'])['notificationCreationTime'])]. *)
Record event : Type := {
  notificationCreationTime : string;
  configRuleName : string;
  accountId : string;
  resultToken : string;
}.

(** An evaluation is a dict from field names to strings. *)
Abbreviation evaluation := (gmap string string).

Definition DEFAULT_RESOURCE_TYPE : string := "AWS::EMR::Cluster".

(** An entry of [list_clusters()['Clusters']]. *)
Record cluster_summary : Type := { Id : string }.

(** [describe_cluster(...)['Cluster']]: [State] is [Status.State], and
    [SecurityConfiguration] is absent when no configuration is attached. *)
Record cluster_description : Type := {
  State : string;
  SecurityConfiguration : option string;
}.

(** The answers to [list_clusters]: a page, then either the end, or a
    marker and the answer to the call with that marker. *)
Inductive cluster_pages : Type :=
  | LastPage (clusters : list cluster_summary)
  | MorePages (clusters : list cluster_summary) (marker : string)
              (next : cluster_pages)
  | PagesFail (e : exn).

(** The EMR service as the rule sees it.
    [describe_security_configuration name] is the document
    [json.loads(describe_security_configuration(Name=name)["SecurityConfiguration"])]. *)
Record emr_client : Type := {
  list_clusters : cluster_pages;
  describe_cluster : string → res cluster_description;
  describe_security_configuration : string → res pyval;
}.

(** An entry of [EvaluationResults], reduced to
    [EvaluationResultIdentifier.EvaluationResultQualifier.ResourceId]. *)
Record evaluation_result : Type := { ResourceId : string }.

Inductive result_pages : Type :=
  | LastResults (results : list evaluation_result)
  | MoreResults (results : list evaluation_result) (next_token : string)
                (next : result_pages)
  | ResultsFail (e : exn).

(** The Config service: the earlier evaluations of the rule, and the
    answer to [put_evaluations]. *)
Record config_client : Type := {
  get_compliance_details_by_config_rule : result_pages;
  put_evaluations : list evaluation → res unit;
}.

Inductive api_call : Type :=
  | ListClusters (marker : option string)
  | DescribeCluster (cluster_id : string)
  | DescribeSecurityConfiguration (name : string)
  | GetComplianceDetailsByConfigRule (rule_name : string) (next_token : option string)
  | PutEvaluations (evaluations : list evaluation) (result_token : string)
                   (test_mode : bool).

(** ** Computations that call the services

    A computation takes the log of the calls made so far and returns its
    outcome with the extended log. *)

Definition M (A : Type) : Type := list api_call → res A * list api_call.

#[global] Instance M_ret : MRet M := fun A a log => (Ok a, log).
#[global] Instance M_bind : MBind M := fun A B f m log =>
  match m log with
  | (Ok a, log') => f a log'
  | (Raise e, log') => (Raise e, log')
  end.

(** A call to a service: it is logged, and [answer] is its outcome. *)
Definition call {A : Type} (c : api_call) (answer : res A) : M A :=
  fun log => (answer, log ++ [c]).

(** A computation that calls no service. *)
Definition lift {A : Type} (r : res A) : M A :=
  fun log => (r, log).

(** ** Python operations on values *)

Section Rule.

(** The text [str()] gives for a dict.  It depends on the insertion
    order of the keys and on the quoting of [repr], which the value
    model does not record: the development is parametric in it. *)
Variable repr_dict : gmap string pyval → string.

(** [str(v)] *)
Definition py_str (v : pyval) : string :=
  match v with
  | VNone => "None"
  | VBool true => "True"
  | VBool false => "False"
  | VInt z => pretty z
  | VStr s => s
  | VDict m => repr_dict m
  end.

(** [len(v)] *)
Definition py_len (v : pyval) : res nat :=
  match v with
  | VStr s => Ok (PyStr.len s)
  | VDict m => Ok (size m)
  | _ => Raise TypeError
  end.

(** [key in v] for a string [key] *)
Definition py_in (key : string) (v : pyval) : res bool :=
  match v with
  | VDict m => Ok (bool_decide (is_Some (m !! key)))
  | VStr s => Ok (PyStr.contains key s)
  | _ => Raise TypeError
  end.

(** [v[key]] for a string [key] *)
Definition py_getitem (v : pyval) (key : string) : res pyval :=
  match v with
  | VDict m =>
      match m !! key with
      | Some x => Ok x
      | None => Raise (KeyError (VStr key))
      end
  | _ => Raise TypeError
  end.

(** The integer a value stands for in a comparison ([bool] is a
    subclass of [int]). *)
Definition as_int (v : pyval) : option Z :=
  match v with
  | VInt z => Some z
  | VBool b => Some (if b then 1 else 0)%Z
  | _ => None
  end.

(** [a < b] *)
Definition py_lt (a b : pyval) : res bool :=
  match a, b with
  | VStr s, VStr t => Ok (String.ltb s t)
  | _, _ =>
      match as_int a, as_int b with
      | Some x, Some y => Ok (x <? y)%Z
      | _, _ => Raise TypeError
      end
  end.

(** ** [is_valid_hostname] *)

(** The body of [is_valid_hostname] once [hostname] is known to be a
    [str]. *)
Definition is_valid_hostname_str (s : string) (type : string) : res bool :=
  if (255 <? PyStr.len s)%nat then Ok false else
  c ← PyStr.last_char s;
  let hostname := if bool_decide (c = "."%char) then PyStr.drop_last s else s in
  let fqdn := PyStr.split ":"%char hostname in
  if String.eqb type "FQDN" && (1 <? List.length fqdn)%nat
     && negb (PyStr.isnumeric (nth 1 fqdn ""))
  then Ok false else
  let hostname := if String.eqb type "FQDN" then nth 0 fqdn "" else hostname in
  if (List.length (PyStr.split "."%char hostname) <? 2)%nat then Ok false else
  Ok (forallb Regex.allowed_match (PyStr.split "."%char hostname)).

Definition is_valid_hostname (hostname : pyval) (type : string) : res bool :=
  match hostname with
  | VStr s => is_valid_hostname_str s type
  | VDict m =>
      (* [len] is the number of keys; the keys are strings, so
         [hostname[-1]] finds nothing *)
      if (255 <? size m)%nat then Ok false else Raise (KeyError (VInt (-1)))
  | _ => Raise TypeError
  end.

(** ** [evaluate_parameters] *)

(** [if key in rule_parameters and <check fails>: raise ValueError(key)] *)
Definition check_parameter (rule_parameters : gmap string pyval)
    (key : string) (fails : pyval → res bool) : res unit :=
  match rule_parameters !! key with
  | None => Ok tt
  | Some v => bad ← fails v; if bad : bool then Raise (ValueError key) else Ok tt
  end.

Definition evaluate_parameters (rule_parameters : gmap string pyval)
  : res (gmap string pyval) :=
  if bool_decide (rule_parameters = ∅) then Ok ∅ else
  check_parameter rule_parameters "TicketLifetimeInHours"
    (λ v, Ok (negb (PyStr.isnumeric (py_str v)))) ;;
  check_parameter rule_parameters "Realm"
    (λ v, if negb (PyStr.isupper (py_str v)) then Ok true
          else negb <$> is_valid_hostname v "DOMAIN") ;;
  check_parameter rule_parameters "Domain"
    (λ v, negb <$> is_valid_hostname v "DOMAIN") ;;
  check_parameter rule_parameters "AdminServer"
    (λ v, negb <$> is_valid_hostname v "FQDN") ;;
  check_parameter rule_parameters "KdcServer"
    (λ v, negb <$> is_valid_hostname v "FQDN") ;;
  Ok rule_parameters.

(** ** Evaluations *)

(** [build_evaluation]: the annotation is stored only when it is
    truthy (neither [None] nor the empty string). *)
Definition build_evaluation (resource_id compliance_type : string)
    (ev : event) (resource_type : string) (annotation : option string)
  : evaluation :=
  let eval_cc : evaluation := ∅ in
  let eval_cc :=
    match annotation with
    | Some a => if bool_decide (a = "") then eval_cc
                else <["Annotation" := a]> eval_cc
    | None => eval_cc
    end in
  let eval_cc := <["ComplianceResourceType" := resource_type]> eval_cc in
  let eval_cc := <["ComplianceResourceId" := resource_id]> eval_cc in
  let eval_cc := <["ComplianceType" := compliance_type]> eval_cc in
  <["OrderingTimestamp" := notificationCreationTime ev]> eval_cc.

(** ** [get_all_cluster] *)

Fixpoint list_cluster_pages (marker : option string) (p : cluster_pages)
  : M (list cluster_summary) :=
  match p with
  | LastPage cs => call (ListClusters marker) (Ok cs)
  | MorePages cs m next =>
      call (ListClusters marker) (Ok tt) ;;
      rest ← list_cluster_pages (Some m) next;
      mret (cs ++ rest)
  | PagesFail e => call (ListClusters marker) (Raise e)
  end.

Definition get_all_cluster (client : emr_client) : M (list cluster_summary) :=
  list_cluster_pages None (list_clusters client).

(** ** [evaluate_compliance] *)

Definition terminated_states : list string :=
  ["TERMINATING"; "TERMINATED"; "TERMINATED_WITH_ERRORS"].

(** The condition of the Kerberos test: one of the three nested keys
    is missing.  [or] evaluates its operands from the left and stops at
    the first true one. *)
Definition kerberos_not_enabled (cluster_sc_details : pyval) : res bool :=
  a ← py_in "AuthenticationConfiguration" cluster_sc_details;
  if negb a then Ok true else
  auth ← py_getitem cluster_sc_details "AuthenticationConfiguration";
  b ← py_in "KerberosConfiguration" auth;
  if negb b then Ok true else
  kerberos ← py_getitem auth "KerberosConfiguration";
  c ← py_in "ClusterDedicatedKdcConfiguration" kerberos;
  Ok (negb c).

(** The truth value of [str.__eq__(s, v)]: a comparison of strings
    when [v] is a [str], and [NotImplemented], which is truthy,
    otherwise. *)
Definition str_eq_truth (s : string) (v : pyval) : bool :=
  match v with
  | VStr t => String.eqb s t
  | _ => true
  end.

(** [key in rule_parameters and
     not str(sc_kerberos_details[key]).__eq__(rule_parameters[key])] *)
Definition differs (rule_parameters : gmap string pyval)
    (sc_kerberos_details : pyval) (key : string) : res bool :=
  match rule_parameters !! key with
  | None => Ok false
  | Some p =>
      v ← py_getitem sc_kerberos_details key;
      Ok (negb (str_eq_truth (py_str v) p))
  end.

Definition non_compliant (cluster_id : string) (ev : event) (annotation : string)
  : evaluation :=
  build_evaluation cluster_id "NON_COMPLIANT" ev DEFAULT_RESOURCE_TYPE
    (Some annotation).

(** The loop body from the test on CrossRealmTrustConfiguration to
    its end; [sc_kerberos_details] is the ClusterDedicatedKdcConfiguration
    block. *)
Definition cross_realm_checks (rule_parameters : gmap string pyval)
    (ev : event) (cluster_id : string) (sc_kerberos_details : pyval)
  : res evaluation :=
  present ← py_in "CrossRealmTrustConfiguration" sc_kerberos_details;
  if negb present then
    Ok (non_compliant cluster_id ev
          "CrossRealmTrustConfiguration is not configured in security configuration.")
  else
  sc_kerberos_details ← py_getitem sc_kerberos_details "CrossRealmTrustConfiguration";
  d ← differs rule_parameters sc_kerberos_details "Realm";
  if d : bool then
    Ok (non_compliant cluster_id ev
          "Realm is not equal to the specified Rule parameter Realm.")
  else
  d ← differs rule_parameters sc_kerberos_details "Domain";
  if d : bool then
    Ok (non_compliant cluster_id ev
          "Domain is not equal to the specified Rule parameter Domain.")
  else
  d ← differs rule_parameters sc_kerberos_details "AdminServer";
  if d : bool then
    Ok (non_compliant cluster_id ev
          "AdminServer is not equal to the specified Rule parameter AdminServer.")
  else
  d ← differs rule_parameters sc_kerberos_details "KdcServer";
  if d : bool then
    Ok (non_compliant cluster_id ev
          "KdcServer is not equal to the specified Rule parameter KdcServer.")
  else
  Ok (build_evaluation cluster_id "COMPLIANT" ev DEFAULT_RESOURCE_TYPE None).

(** [key in rule_parameters and
     sc_kerberos_details[key] < rule_parameters[key]] *)
Definition smaller (rule_parameters : gmap string pyval)
    (sc_kerberos_details : pyval) (key : string) : res bool :=
  match rule_parameters !! key with
  | None => Ok false
  | Some p =>
      v ← py_getitem sc_kerberos_details key;
      py_lt v p
  end.

(** The loop body once the security configuration has been fetched
    and parsed. *)
Definition evaluate_security_configuration (rule_parameters : gmap string pyval)
    (ev : event) (cluster_id : string) (cluster_sc_details : pyval)
  : res evaluation :=
  missing ← kerberos_not_enabled cluster_sc_details;
  if missing : bool then
    Ok (non_compliant cluster_id ev
          "Kerberos Authentication is not enabled in the Security Configuration.")
  else
  auth ← py_getitem cluster_sc_details "AuthenticationConfiguration";
  kerberos ← py_getitem auth "KerberosConfiguration";
  sc_kerberos_details ← py_getitem kerberos "ClusterDedicatedKdcConfiguration";
  s ← smaller rule_parameters sc_kerberos_details "TicketLifetimeInHours";
  if s : bool then
    Ok (non_compliant cluster_id ev
          "TicketLifetimeInHours is smaller than the specified Rule parameter TicketLifetimeInHours.")
  else
  cross_realm_checks rule_parameters ev cluster_id sc_kerberos_details.

(** One iteration of the loop over the clusters: the evaluation that
    is appended. *)
Definition evaluate_cluster (client : emr_client) (ev : event)
    (rule_parameters : gmap string pyval) (cluster : cluster_summary)
  : M evaluation :=
  let cluster_id := Id cluster in
  described_cluster ← call (DescribeCluster cluster_id)
                           (describe_cluster client cluster_id);
  if bool_decide (State described_cluster ∈ terminated_states) then
    mret (build_evaluation cluster_id "NOT_APPLICABLE" ev DEFAULT_RESOURCE_TYPE None)
  else
  match SecurityConfiguration described_cluster with
  | None =>
      mret (non_compliant cluster_id ev "No Security Configuration is attached.")
  | Some name =>
      cluster_sc_details ← call (DescribeSecurityConfiguration name)
                                (describe_security_configuration client name);
      lift (evaluate_security_configuration rule_parameters ev cluster_id
              cluster_sc_details)
  end.

(** [for x in xs: ys.append(body(x))]; an exception ends the loop. *)
Fixpoint for_each {A B : Type} (body : A → M B) (xs : list A) : M (list B) :=
  match xs with
  | [] => mret []
  | x :: xs' =>
      y ← body x;
      ys ← for_each body xs';
      mret (y :: ys)
  end.

(** [evaluate_compliance]: [None] when there is no cluster, the list of
    evaluations otherwise. *)
Definition evaluate_compliance (client : emr_client) (ev : event)
    (rule_parameters : gmap string pyval) : M (option (list evaluation)) :=
  cluster_list ← get_all_cluster client;
  match cluster_list with
  | [] => mret None
  | _ :: _ =>
      evaluations ← for_each (evaluate_cluster client ev rule_parameters)
                             cluster_list;
      mret (Some evaluations)
  end.

End Rule.

(** ** [clean_up_old_evaluations] *)

Fixpoint list_result_pages (rule_name : string) (token : option string)
    (p : result_pages) : M (list evaluation_result) :=
  match p with
  | LastResults rs => call (GetComplianceDetailsByConfigRule rule_name token) (Ok rs)
  | MoreResults rs t next =>
      call (GetComplianceDetailsByConfigRule rule_name token) (Ok tt) ;;
      rest ← list_result_pages rule_name (Some t) next;
      mret (rs ++ rest)
  | ResultsFail e => call (GetComplianceDetailsByConfigRule rule_name token) (Raise e)
  end.

(** The inner loop: it reads [latest_eval['ComplianceResourceId']] of
    every latest evaluation and does not stop at the first hit. *)
Fixpoint newer_founded (old_resource_id : string) (latest_evaluations : list evaluation)
  : res bool :=
  match latest_evaluations with
  | [] => Ok false
  | latest_eval :: rest =>
      match latest_eval !! "ComplianceResourceId" with
      | None => Raise (KeyError (VStr "ComplianceResourceId"))
      | Some resource_id =>
          found ← newer_founded old_resource_id rest;
          Ok (bool_decide (old_resource_id = resource_id) || found)
      end
  end.

(** The outer loop: the value of [cleaned_evaluations] at its end. *)
Fixpoint cleaned_evaluations (ev : event) (latest_evaluations : list evaluation)
    (old_eval_list : list evaluation_result) : res (list evaluation) :=
  match old_eval_list with
  | [] => Ok []
  | old_eval :: rest =>
      let old_resource_id := ResourceId old_eval in
      found ← newer_founded old_resource_id latest_evaluations;
      cleaned ← cleaned_evaluations ev latest_evaluations rest;
      Ok (if found : bool then cleaned
          else build_evaluation old_resource_id "NOT_APPLICABLE" ev
                 DEFAULT_RESOURCE_TYPE None :: cleaned)
  end.

Definition clean_up_old_evaluations (config : config_client)
    (latest_evaluations : list evaluation) (ev : event) : M (list evaluation) :=
  old_eval_list ← list_result_pages (configRuleName ev) None
                    (get_compliance_details_by_config_rule config);
  cleaned ← lift (cleaned_evaluations ev latest_evaluations old_eval_list);
  mret (cleaned ++ latest_evaluations).

(** ** [lambda_handler], from the result of [evaluate_compliance] on *)

(** What [evaluate_compliance] may return, by its docstring. *)
Inductive compliance_result : Type :=
  | ResultNone
  | ResultStr (s : string)
  | ResultList (l : list evaluation)
  | ResultDict (d : evaluation).

(** [not compliance_result] *)
Definition falsy (r : compliance_result) : bool :=
  match r with
  | ResultNone => true
  | ResultStr s => bool_decide (s = "")
  | ResultList l => bool_decide (l = [])
  | ResultDict d => bool_decide (d = ∅)
  end.

Definition required_fields : list string :=
  ["ComplianceResourceType"; "ComplianceResourceId"; "ComplianceType";
   "OrderingTimestamp"].

(** The loop over the four fields: the final value of [missing_fields]. *)
Definition missing_fields (e : evaluation) : bool :=
  foldl (λ missing field,
           if negb (bool_decide (is_Some (e !! field))) then true else missing)
        false required_fields.

(** The loop over a list result: the evaluations appended to
    [latest_evaluations]. *)
Fixpoint complete_evaluations (l : list evaluation) : list evaluation :=
  match l with
  | [] => []
  | e :: rest =>
      if missing_fields e then complete_evaluations rest
      else e :: complete_evaluations rest
  end.

(** [build_evaluation_from_config_item]; for a scheduled notification
    the configuration item is [None]. *)
Definition build_evaluation_from_config_item
    (configuration_item : option (gmap string string))
    (compliance_type : string) : res evaluation :=
  match configuration_item with
  | None => Raise TypeError
  | Some ci =>
      match ci !! "resourceType", ci !! "resourceId",
            ci !! "configurationItemCaptureTime" with
      | None, _, _ => Raise (KeyError (VStr "resourceType"))
      | Some _, None, _ => Raise (KeyError (VStr "resourceId"))
      | Some _, Some _, None => Raise (KeyError (VStr "configurationItemCaptureTime"))
      | Some rt, Some rid, Some t =>
          Ok (<["OrderingTimestamp" := t]>
                (<["ComplianceType" := compliance_type]>
                   (<["ComplianceResourceId" := rid]>
                      (<["ComplianceResourceType" := rt]> ∅))))
      end
  end.

(** The evaluations to report, as they stand before the submission
    loop. *)
Definition evaluations_to_report (config : config_client) (ev : event)
    (configuration_item : option (gmap string string))
    (result : compliance_result) : M (list evaluation) :=
  if falsy result then
    clean_up_old_evaluations config
      [build_evaluation (accountId ev) "NOT_APPLICABLE" ev "AWS::::Account" None] ev
  else
    match result with
    | ResultStr s =>
        e ← lift (build_evaluation_from_config_item configuration_item s);
        mret [e]
    | ResultList l =>
        clean_up_old_evaluations config (complete_evaluations l) ev
    | ResultDict d =>
        mret (if missing_fields d then [] else [d])
    | ResultNone => mret []
    end.

(** The submission loop: batches of at most 100 evaluations, until none
    is left. *)
Equations? submit (config : config_client) (result_token : string)
    (test_mode : bool) (evaluations : list evaluation) : M (list evaluation)
    by wf (List.length evaluations) lt :=
  submit config result_token test_mode [] := mret [];
  submit config result_token test_mode (e :: rest) :=
    call (PutEvaluations (take 100 (e :: rest)) result_token test_mode)
         (put_evaluations config (take 100 (e :: rest))) ;;
    submit config result_token test_mode (drop 100 (e :: rest)).
Proof. simpl. rewrite length_drop. lia. Defined.

(** The end of [lambda_handler]: the evaluations are formed and
    submitted; the value returned is what the loop leaves of the list. *)
Definition report (config : config_client) (ev : event)
    (configuration_item : option (gmap string string))
    (result : compliance_result) : M (list evaluation) :=
  evaluations ← evaluations_to_report config ev configuration_item result;
  let test_mode := bool_decide (resultToken ev = "TESTMODE") in
  submit config (resultToken ev) test_mode evaluations.

(** ** [is_applicable] *)

(** The truth value of a Python value. *)
Definition py_truth (v : pyval) : bool :=
  match v with
  | VNone => false
  | VBool b => b
  | VInt z => negb (z =? 0)%Z
  | VStr s => negb (bool_decide (s = ""))
  | VDict m => negb (bool_decide (m = ∅))
  end.

(** [v == s] for a string [s]: only a [str] equals a [str]. *)
Definition py_eq_str (v : pyval) (s : string) : bool :=
  match v with
  | VStr t => String.eqb t s
  | _ => false
  end.

(** [is_applicable(configurationItem, event)].  The Lambda event is a
    non-empty dict, so [check_defined(event, 'event')] passes;
    [eventLeftScope] is [event['eventLeftScope']], absent when the event
    has no such key.  [check_defined] raises on a falsy configuration
    item, and the bare [except] turns that into [True]. *)
Definition is_applicable (configurationItem : pyval)
    (eventLeftScope : option pyval) : res bool :=
  if negb (py_truth configurationItem) then Ok true else
  status ← py_getitem configurationItem "configurationItemStatus";
  left_scope ← match eventLeftScope with
               | Some v => Ok v
               | None => Raise (KeyError (VStr "eventLeftScope"))
               end;
  Ok ((py_eq_str status "OK" || py_eq_str status "ResourceDiscovered")
      && negb (py_truth left_scope)).

(** ** Error responses *)

(** The dict that [build_error_response] returns. *)
Record error_response : Type := {
  internalErrorMessage : string;
  internalErrorDetails : option string;
  customerErrorMessage : option string;
  customerErrorCode : option string;
}.

Definition build_error_response (internalErrorMessage : string)
    (internalErrorDetails customerErrorCode customerErrorMessage : option string)
  : error_response :=
  {| internalErrorMessage := internalErrorMessage;
     internalErrorDetails := internalErrorDetails;
     customerErrorMessage := customerErrorMessage;
     customerErrorCode := customerErrorCode |}.

Definition build_internal_error_response (internalErrorMessage : string)
    (internalErrorDetails : option string) : error_response :=
  build_error_response internalErrorMessage internalErrorDetails
    (Some "InternalError") (Some "InternalError").

(** [build_parameters_value_error_response(ex)]; [ex] is the text of the
    ValueError, the name of the parameter. *)
Definition build_parameters_value_error_response (ex : string) : error_response :=
  build_error_response "Customer error while parsing input parameters"
    (Some "Parameter value is invalid")
    (Some "InvalidParameterValueException")
    (Some ex).

(** [is_internal_error(exception)] *)
Definition is_internal_error (exception : exn) : bool :=
  match exception with
  | ClientError code =>
      String.prefix "5" code
      || PyStr.contains "InternalError" code
      || PyStr.contains "ServiceError" code
  | _ => true
  end.

(** ** [lambda_handler] on a scheduled notification *)

(** [try: body  except ...: handler]: [handler] tells which exceptions
    are caught and what runs then. *)
Definition try_except {A : Type} (body : M A) (handler : exn → option (M A))
  : M A :=
  λ log,
    match body log with
    | (Raise e, log') =>
        match handler e with
        | Some h => h log'
        | None => (Raise e, log')
        end
    | done => done
    end.

(** What [lambda_handler] returns: an error response, or the list
    [evaluations] as the submission loop leaves it. *)
Inductive handler_result : Type :=
  | ErrorResponse (r : error_response)
  | Returned (evaluations : list evaluation).

(** The value of [evaluate_compliance] as [lambda_handler] inspects it. *)
Definition result_of (r : option (list evaluation)) : compliance_result :=
  match r with
  | None => ResultNone
  | Some l => ResultList l
  end.

Section Handler.

Variable repr_dict : gmap string pyval → string.

(** The text [str(ex)] and the message [ex.response['Error']['Message']]
    of a ClientError.  The exception model records the error code only:
    both texts are parameters, given by the code. *)
Variable client_error_str : string → string.
Variable client_error_message : string → string.

(** The [except] clauses of the second [try]. *)
Definition api_error_handler (e : exn) : option (M (error_response + compliance_result)) :=
  match e with
  | ClientError code =>
      Some (mret (inl
        (if is_internal_error (ClientError code) then
           build_internal_error_response
             "Unexpected error while completing API request"
             (Some (client_error_str code))
         else
           build_error_response "Customer error while making API request"
             (Some (client_error_str code)) (Some code)
             (Some (client_error_message code)))))
  | ValueError ex =>
      Some (mret (inl (build_internal_error_response ex (Some ex))))
  | _ => None
  end.

(** [lambda_handler(event, context)] for an event whose invoking event has
    the message type ScheduledNotification, the trigger of this rule:
    [get_configuration_item] then returns [None].  [ruleParameters] is
    the parsed [event['ruleParameters']], absent when the event has no
    such key. *)
Definition lambda_handler (emr : emr_client) (config : config_client)
    (ev : event) (ruleParameters : option (gmap string pyval))
    (eventLeftScope : option pyval) : M handler_result :=
  let rule_parameters := default ∅ ruleParameters in
  match evaluate_parameters repr_dict rule_parameters with
  | Raise (ValueError ex) =>
      mret (ErrorResponse (build_parameters_value_error_response ex))
  | Raise e => lift (Raise e)
  | Ok valid_rule_parameters =>
      let configuration_item := VNone in
      step ← try_except
                (applicable ← lift (is_applicable configuration_item eventLeftScope);
                 if applicable : bool then
                   compliance_result ← evaluate_compliance repr_dict emr ev
                                         valid_rule_parameters;
                   mret (inr (result_of compliance_result))
                 else mret (inr (ResultStr "NOT_APPLICABLE")))
                api_error_handler;
      match step with
      | inl response => mret (ErrorResponse response)
      | inr compliance_result =>
          evaluations ← report config ev None compliance_result;
          mret (Returned evaluations)
      end
  end.

End Handler.

(** * Notions used in the statements *)

(** The outcome and the calls of a computation started on an empty log. *)
Definition outcome {A : Type} (m : M A) : res A := fst (m []).
Definition calls {A : Type} (m : M A) : list api_call := snd (m []).

(** A computation is uniform when the log it starts from has no
    influence: the outcome is the same and the calls are appended. *)
Definition uniform {A : Type} (m : M A) : Prop :=
  ∀ log, m log = (outcome m, log ++ calls m).

(** The five tests of [evaluate_parameters], in the order of the source. *)
Definition parameter_checks (repr_dict : gmap string pyval → string)
  : list (string * (pyval → res bool)) :=
  [ ("TicketLifetimeInHours",
     λ v, Ok (negb (PyStr.isnumeric (py_str repr_dict v))));
    ("Realm",
     λ v, if negb (PyStr.isupper (py_str repr_dict v)) then Ok true
          else negb <$> is_valid_hostname v "DOMAIN");
    ("Domain", λ v, negb <$> is_valid_hostname v "DOMAIN");
    ("AdminServer", λ v, negb <$> is_valid_hostname v "FQDN");
    ("KdcServer", λ v, negb <$> is_valid_hostname v "FQDN") ].

Definition recognized_parameters : list string :=
  ["TicketLifetimeInHours"; "Realm"; "Domain"; "AdminServer"; "KdcServer"].

(** The ClusterDedicatedKdcConfiguration block of a document in which the
    three nested objects are present. *)
Definition kerberos_block (cluster_sc_details : pyval) : option pyval :=
  match cluster_sc_details with
  | VDict m =>
      match m !! "AuthenticationConfiguration" with
      | Some (VDict auth) =>
          match auth !! "KerberosConfiguration" with
          | Some (VDict kerberos) => kerberos !! "ClusterDedicatedKdcConfiguration"
          | _ => None
          end
      | _ => None
      end
  | _ => None
  end.

Definition cross_realm_parameters : list string :=
  ["Realm"; "Domain"; "AdminServer"; "KdcServer"].

(** The clusters that the pages of [list_clusters] hold, in order. *)
Fixpoint page_clusters (p : cluster_pages) : res (list cluster_summary) :=
  match p with
  | LastPage cs => Ok cs
  | MorePages cs _ next => rest ← page_clusters next; Ok (cs ++ rest)
  | PagesFail e => Raise e
  end.

(** The earlier results that the pages hold, in order. *)
Fixpoint page_results (p : result_pages) : res (list evaluation_result) :=
  match p with
  | LastResults rs => Ok rs
  | MoreResults rs _ next => rest ← page_results next; Ok (rs ++ rest)
  | ResultsFail e => Raise e
  end.

(** The resource identifiers of a list of evaluations. *)
Definition resource_ids (l : list evaluation) : list (option string) :=
  (λ e : evaluation, e !! "ComplianceResourceId") <$> l.

(** The evaluations of a list that are about a given resource. *)
Definition evaluations_for (r : string) (l : list evaluation) : list evaluation :=
  filter (λ e : evaluation, e !! "ComplianceResourceId" = Some r) l.

Definition not_applicable (ev : event) (old_eval : evaluation_result) : evaluation :=
  build_evaluation (ResourceId old_eval) "NOT_APPLICABLE" ev
    DEFAULT_RESOURCE_TYPE None.

(** The evaluations synthesized for the earlier results that no latest
    evaluation is about: one per such result, in the order of the
    results. *)
Definition stale_evaluations (ev : event) (latest_evaluations : list evaluation)
    (old_eval_list : list evaluation_result) : list evaluation :=
  not_applicable ev <$>
    filter (λ o, Some (ResourceId o) ∉ resource_ids latest_evaluations)
           old_eval_list.

(** The reading of the reconciler that counts resources: every resource
    that the earlier results name and no latest evaluation is about has
    exactly one evaluation in the result. *)
Definition one_per_stale_resource (old_eval_list : list evaluation_result)
    (latest_evaluations result : list evaluation) : Prop :=
  ∀ r, r ∈ ResourceId <$> old_eval_list →
       Some r ∉ resource_ids latest_evaluations →
       List.length (evaluations_for r result) = 1.

(** The evaluations that the [put_evaluations] calls of a log carry, in
    the order of the calls. *)
Fixpoint submitted (log : list api_call) : list evaluation :=
  match log with
  | [] => []
  | PutEvaluations batch _ _ :: rest => batch ++ submitted rest
  | _ :: rest => submitted rest
  end.

(** An evaluation has the four required fields. *)
Definition complete (e : evaluation) : Prop :=
  Forall (λ field, is_Some (e !! field)) required_fields.

#[global] Instance complete_dec e : Decision (complete e).
Proof. unfold complete. apply _. Defined.




(** A document, given as a dict, in which one of the three nested keys
    is missing while the objects above it are dicts. *)
Definition kerberos_missing (m : gmap string pyval) : Prop :=
  m !! "AuthenticationConfiguration" = None
  ∨ ∃ auth : gmap string pyval,
      m !! "AuthenticationConfiguration" = Some (VDict auth)
      ∧ (auth !! "KerberosConfiguration" = None
         ∨ ∃ kerberos : gmap string pyval,
             auth !! "KerberosConfiguration" = Some (VDict kerberos)
             ∧ kerberos !! "ClusterDedicatedKdcConfiguration" = None).

(** A parameter is set, the cross-realm block has the field, and the
    text of the field is not the parameter. *)
Definition mismatch (repr_dict : gmap string pyval → string)
    (rp c : gmap string pyval) (key : string) : bool :=
  match rp !! key, c !! key with
  | Some p, Some v => negb (str_eq_truth (py_str repr_dict v) p)
  | _, _ => false
  end.

(** The first of Realm, Domain, AdminServer, KdcServer that mismatches. *)
Definition first_mismatch (repr_dict : gmap string pyval → string)
    (rp c : gmap string pyval) : option string :=
  List.find (mismatch repr_dict rp c) cross_realm_parameters.

(** The annotations that the rule attaches to a NON_COMPLIANT
    evaluation. *)
Definition annotations : list string :=
  [ "No Security Configuration is attached.";
    "Kerberos Authentication is not enabled in the Security Configuration.";
    "TicketLifetimeInHours is smaller than the specified Rule parameter TicketLifetimeInHours.";
    "CrossRealmTrustConfiguration is not configured in security configuration.";
    "Realm is not equal to the specified Rule parameter Realm.";
    "Domain is not equal to the specified Rule parameter Domain.";
    "AdminServer is not equal to the specified Rule parameter AdminServer.";
    "KdcServer is not equal to the specified Rule parameter KdcServer." ].

(** The evaluations that the rule forms for a cluster. *)
Definition rule_evaluation (ev : event) (cluster_id : string) (e : evaluation)
  : Prop :=
  e = build_evaluation cluster_id "COMPLIANT" ev DEFAULT_RESOURCE_TYPE None
  ∨ e = build_evaluation cluster_id "NOT_APPLICABLE" ev DEFAULT_RESOURCE_TYPE None
  ∨ ∃ a, a ∈ annotations ∧ e = non_compliant cluster_id ev a.

(** The calls that read the EMR service. *)
Definition emr_read_call (c : api_call) : Prop :=
  match c with
  | ListClusters _ | DescribeCluster _ | DescribeSecurityConfiguration _ => True
  | _ => False
  end.

(** The calls of the loop of [get_all_cluster]: one per page, the first
    without a marker, each next one with the marker of the page before. *)
Fixpoint page_calls (marker : option string) (p : cluster_pages) : list api_call :=
  match p with
  | LastPage _ => [ListClusters marker]
  | MorePages _ m next => ListClusters marker :: page_calls (Some m) next
  | PagesFail _ => [ListClusters marker]
  end.

(** The pages of an answer in which no call fails. *)
Fixpoint all_pages (p : cluster_pages) : option (list (list cluster_summary)) :=
  match p with
  | LastPage cs => Some [cs]
  | MorePages cs _ next => (cs ::.) <$> all_pages next
  | PagesFail _ => None
  end.

(** What every [put_evaluations] call of the handler satisfies: the
    result token of the event, the test mode exactly for the token
    TESTMODE, and between 1 and 100 evaluations. *)
Definition put_call_ok (ev : event) (c : api_call) : Prop :=
  match c with
  | PutEvaluations batch result_token test_mode =>
      result_token = resultToken ev
      ∧ test_mode = bool_decide (resultToken ev = "TESTMODE")
      ∧ (1 ≤ List.length batch ≤ 100)%nat
  | _ => True
  end.

(** * Example inputs *)

Definition example_repr : gmap string pyval → string := λ _, "{}".

Definition example_event : event :=
  {| notificationCreationTime := "2019-01-01T00:00:00.000Z";
     configRuleName := "emr-kerberos-enabled";
     accountId := "123456789012";
     resultToken := "TESTMODE" |}.

Definition example_cross_realm : gmap string pyval :=
  {[ "Realm" := VStr "AD.DOMAIN.COM";
     "Domain" := VStr "ad.domain.com";
     "AdminServer" := VStr "ad.domain.com";
     "KdcServer" := VStr "ad.domain.com" ]}.

(** A ClusterDedicatedKdcConfiguration block with a ticket lifetime of
    ten hours. *)
Definition example_block : gmap string pyval :=
  {[ "TicketLifetimeInHours" := VInt 10;
     "CrossRealmTrustConfiguration" := VDict example_cross_realm ]}.

Definition document_of_block (block : gmap string pyval) : pyval :=
  VDict {[ "AuthenticationConfiguration" :=
             VDict {[ "KerberosConfiguration" :=
                        VDict {[ "ClusterDedicatedKdcConfiguration" :=
                                   VDict block ]} ]} ]}.

Definition example_document : pyval := document_of_block example_block.

(** Two clusters on two pages: j-1 runs with the configuration
    kerberos-sc attached, j-2 is terminated. *)
Definition example_client : emr_client :=
  {| list_clusters :=
       MorePages [ {| Id := "j-1" |} ] "page-2" (LastPage [ {| Id := "j-2" |} ]);
     describe_cluster := λ cluster_id,
       if String.eqb cluster_id "j-2"
       then Ok {| State := "TERMINATED"; SecurityConfiguration := None |}
       else Ok {| State := "RUNNING"; SecurityConfiguration := Some "kerberos-sc" |};
     describe_security_configuration := λ _, Ok example_document |}.

Definition example_parameters (hours : Z) : gmap string pyval :=
  {[ "TicketLifetimeInHours" := VInt hours; "Realm" := VStr "AD.DOMAIN.COM" ]}.

(** The Config service with earlier results for j-0 and j-1. *)
Definition example_config : config_client :=
  {| get_compliance_details_by_config_rule :=
       LastResults [ {| ResourceId := "j-0" |}; {| ResourceId := "j-1" |} ];
     put_evaluations := λ _, Ok () |}.

(** The Config service with two earlier results for the same resource. *)
Definition duplicate_config : config_client :=
  {| get_compliance_details_by_config_rule :=
       LastResults [ {| ResourceId := "A" |}; {| ResourceId := "A" |} ];
     put_evaluations := λ _, Ok () |}.

(** One running cluster without a security configuration. *)
Definition unattached_client : emr_client :=
  {| list_clusters := LastPage [ {| Id := "j-3" |} ];
     describe_cluster := λ _,
       Ok {| State := "RUNNING"; SecurityConfiguration := None |};
     describe_security_configuration := λ _, Ok VNone |}.

(** One running cluster whose security configuration is the given
    document. *)
Definition client_with_document (document : pyval) : emr_client :=
  {| list_clusters := LastPage [ {| Id := "j-1" |} ];
     describe_cluster := λ _,
       Ok {| State := "RUNNING"; SecurityConfiguration := Some "sc" |};
     describe_security_configuration := λ _, Ok document |}.

(** Three clusters; the description of the second one is refused. *)
Definition failing_client : emr_client :=
  {| list_clusters :=
       LastPage [ {| Id := "j-1" |}; {| Id := "j-2" |}; {| Id := "j-3" |} ];
     describe_cluster := λ cluster_id,
       if String.eqb cluster_id "j-2"
       then Raise (ClientError "AccessDeniedException")
       else Ok {| State := "RUNNING"; SecurityConfiguration := Some "kerberos-sc" |};
     describe_security_configuration := λ _, Ok example_document |}.

(** The Config service when it refuses every batch. *)
Definition rejecting_config : config_client :=
  {| get_compliance_details_by_config_rule := LastResults [];
     put_evaluations := λ _, Raise (ClientError "ThrottlingException") |}.

Definition example_error_str (code : string) : string :=
  "An error occurred (" +:+ code +:+ ")".

Definition example_error_message (code : string) : string :=
  "The request was refused.".

(** * Properties *)

(** ** Computations and their logs *)

Lemma uniform_ret {A : Type} (a : A) : uniform (mret a : M A).
Proof. intros log. unfold outcome, calls. simpl. by rewrite app_nil_r. Qed.

Lemma uniform_lift {A : Type} (r : res A) : uniform (lift r).
Proof. intros log. unfold outcome, calls, lift. simpl. by rewrite app_nil_r. Qed.

Lemma uniform_call {A : Type} (c : api_call) (r : res A) : uniform (call c r).
Proof. intros log. reflexivity. Qed.

Lemma bind_run {A B : Type} (m : M A) (f : A → M B) (log : list api_call) :
  (m ≫= f) log =
    match m log with
    | (Ok a, log') => f a log'
    | (Raise e, log') => (Raise e, log')
    end.
Proof. reflexivity. Qed.

Lemma uniform_bind {A B : Type} (m : M A) (f : A → M B) :
  uniform m → (∀ a, uniform (f a)) → uniform (m ≫= f).
Proof.
  intros Hm Hf log. unfold outcome, calls.
  rewrite !bind_run, (Hm log), (Hm []). simpl.
  destruct (outcome m) as [a|e]; simpl.
  - rewrite (Hf a (log ++ calls m)), (Hf a (calls m)). simpl.
    by rewrite app_assoc.
  - reflexivity.
Qed.

Lemma outcome_bind {A B : Type} (m : M A) (f : A → M B) :
  uniform m →
  outcome (m ≫= f) = match outcome m with
                     | Ok a => fst (f a (calls m))
                     | Raise e => Raise e
                     end.
Proof.
  intros Hm. unfold outcome at 1. rewrite bind_run, (Hm []). simpl.
  by destruct (outcome m).
Qed.

Lemma outcome_bind_uniform {A B : Type} (m : M A) (f : A → M B) :
  uniform m → (∀ a, uniform (f a)) →
  outcome (m ≫= f) = outcome m ≫= (λ a, outcome (f a)).
Proof.
  intros Hm Hf. rewrite outcome_bind by done.
  destruct (outcome m) as [a|e]; simpl; [|done].
  by rewrite (Hf a (calls m)).
Qed.

Lemma fst_uniform {A : Type} (m : M A) (log : list api_call) :
  uniform m → fst (m log) = outcome m.
Proof. intros Hm. by rewrite (Hm log). Qed.

Lemma uniform_for_each {A B : Type} (body : A → M B) (xs : list A) :
  (∀ x, uniform (body x)) → uniform (for_each body xs).
Proof.
  intros Hbody. induction xs as [|x xs IH]; simpl.
  - apply uniform_ret.
  - apply uniform_bind; [done|]. intros y.
    apply uniform_bind; [done|]. intros ys. apply uniform_ret.
Qed.

Lemma uniform_list_cluster_pages marker p : uniform (list_cluster_pages marker p).
Proof.
  revert marker. induction p as [cs|cs m next IH|e]; intros marker; simpl.
  - apply uniform_call.
  - apply uniform_bind; [apply uniform_call|]. intros _.
    apply uniform_bind; [apply IH|]. intros rest. apply uniform_ret.
  - apply uniform_call.
Qed.

Lemma uniform_list_result_pages name token p :
  uniform (list_result_pages name token p).
Proof.
  revert token. induction p as [rs|rs t next IH|e]; intros token; simpl.
  - apply uniform_call.
  - apply uniform_bind; [apply uniform_call|]. intros _.
    apply uniform_bind; [apply IH|]. intros rest. apply uniform_ret.
  - apply uniform_call.
Qed.

Lemma uniform_evaluate_cluster rd client ev rp cluster :
  uniform (evaluate_cluster rd client ev rp cluster).
Proof.
  unfold evaluate_cluster.
  apply uniform_bind; [apply uniform_call|]. intros d.
  destruct (bool_decide _); [apply uniform_ret|].
  destruct (SecurityConfiguration d); [|apply uniform_ret].
  apply uniform_bind; [apply uniform_call|]. intros doc. apply uniform_lift.
Qed.

Lemma uniform_evaluate_compliance rd client ev rp :
  uniform (evaluate_compliance rd client ev rp).
Proof.
  unfold evaluate_compliance, get_all_cluster.
  apply uniform_bind; [apply uniform_list_cluster_pages|]. intros cs.
  destruct cs as [|c cs]; [apply uniform_ret|].
  apply uniform_bind; [|intros; apply uniform_ret].
  apply uniform_for_each. intros x. apply uniform_evaluate_cluster.
Qed.

(** ** The parameter validator *)

Lemma res_bind_ok {A B : Type} (m : res A) (f : A → res B) (b : B) :
  m ≫= f = Ok b ↔ ∃ a, m = Ok a ∧ f a = Ok b.
Proof.
  split.
  - destruct m as [a|e]; simpl; [eauto|discriminate].
  - intros (a & -> & H). exact H.
Qed.

(** The validator succeeds exactly when every test passes, and then it
    returns its argument. *)
Lemma evaluate_parameters_ok rd (rp v : gmap string pyval) :
  evaluate_parameters rd rp = Ok v ↔
  v = rp ∧ Forall (λ c, check_parameter rp c.1 c.2 = Ok tt) (parameter_checks rd).
Proof.
  unfold evaluate_parameters, parameter_checks.
  case_bool_decide as Hempty.
  - subst rp. split.
    + intros [= <-]. split; [done|].
      repeat constructor.
    + intros [-> _]. done.
  - rewrite !Forall_cons, Forall_nil. simpl.
    split.
    + intros H.
      apply res_bind_ok in H as ([] & H1 & H).
      apply res_bind_ok in H as ([] & H2 & H).
      apply res_bind_ok in H as ([] & H3 & H).
      apply res_bind_ok in H as ([] & H4 & H).
      apply res_bind_ok in H as ([] & H5 & H).
      injection H as <-. done.
    + intros (-> & H1 & H2 & H3 & H4 & H5 & _).
      rewrite H1; simpl. rewrite H2; simpl. rewrite H3; simpl.
      rewrite H4; simpl. by rewrite H5.
Qed.

Lemma check_parameter_insert_ne (rp : gmap string pyval) k x key f :
  k ≠ key → check_parameter (<[k:=x]> rp) key f = check_parameter rp key f.
Proof. intros Hne. unfold check_parameter. by rewrite lookup_insert_ne. Qed.

(** C9: when the validator succeeds it returns the mapping it was given,
    with every key and every raw value; a key that is not one of the
    five recognized names is accepted as it is; and the value that the
    evaluator compares with the document's TicketLifetimeInHours is that
    raw value. *)
Theorem evaluate_parameters_returns_input rd (rp v : gmap string pyval) :
  evaluate_parameters rd rp = Ok v →
  v = rp
  ∧ (∀ key, v !! key = rp !! key)
  ∧ (∀ k x, k ∉ recognized_parameters →
       evaluate_parameters rd (<[k:=x]> rp) = Ok (<[k:=x]> rp))
  ∧ (∀ block,
       smaller v block "TicketLifetimeInHours" =
         match rp !! "TicketLifetimeInHours" with
         | None => Ok false
         | Some raw =>
             t ← py_getitem block "TicketLifetimeInHours"; py_lt t raw
         end).
Proof.
  intros H. apply evaluate_parameters_ok in H as [-> Hchecks].
  split; [done|]. split; [done|]. split; [|done].
  intros k x Hk. apply evaluate_parameters_ok. split; [done|].
  eapply Forall_impl; [apply Forall_forall; intros c Hc|].
  - exact (conj Hc (proj1 (Forall_forall _ _) Hchecks c Hc)).
  - intros c [Hc Hok]. simpl in *. rewrite check_parameter_insert_ne; [done|].
    intros ->. apply Hk.
    change recognized_parameters with ((parameter_checks rd).*1).
    by apply list_elem_of_fmap_2.
Qed.

(** The validator on the empty string: [hostname[-1]] raises. *)
Lemma is_valid_hostname_empty type :
  is_valid_hostname (VStr "") type = Raise IndexError.
Proof. reflexivity. Qed.

Lemma last_char_nonempty s : s ≠ "" → ∃ c, PyStr.last_char s = Ok c.
Proof.
  intros Hs. unfold PyStr.last_char.
  destruct s as [|c s]; [done|]. simpl.
  destruct (last (c :: PyStr.chars s)) as [c'|] eqn:Hlast; [eauto|].
  by apply last_None in Hlast.
Qed.

(** On a non-empty string the hostname validator returns a boolean. *)
Lemma is_valid_hostname_str_total s type :
  s ≠ "" → ∃ b, is_valid_hostname (VStr s) type = Ok b.
Proof.
  intros Hs. simpl. unfold is_valid_hostname_str.
  destruct (last_char_nonempty s Hs) as [c ->]. simpl.
  repeat (match goal with |- context [if ?b then _ else _] => destruct b end;
          try by eauto).
Qed.

#[local] Ltac in_list := apply list_elem_of_In; simpl; tauto.

Lemma check_parameter_outcome (rp : gmap string pyval) key f :
  (∀ v, rp !! key = Some v → ∃ b, f v = Ok b) →
  check_parameter rp key f = Ok tt
  ∨ check_parameter rp key f = Raise (ValueError key).
Proof.
  intros Hf. unfold check_parameter.
  destruct (rp !! key) as [v|]; [|by left].
  destruct (Hf v eq_refl) as [[] ->]; simpl; auto.
Qed.

(** The validator on maps of non-empty strings: it returns its
    argument or raises [ValueError] with one of the five names. *)
Lemma evaluate_parameters_nonempty_strings rd (rp : gmap string pyval) :
  (∀ key v, rp !! key = Some v → ∃ s, v = VStr s ∧ s ≠ "") →
  evaluate_parameters rd rp = Ok rp
  ∨ ∃ name, name ∈ recognized_parameters
            ∧ evaluate_parameters rd rp = Raise (ValueError name).
Proof.
  intros Hrp.
  assert (Hhost : ∀ key type v, rp !! key = Some v →
            ∃ b, negb <$> is_valid_hostname v type = Ok b).
  { intros key type v Hv. destruct (Hrp _ _ Hv) as (s & -> & Hs).
    destruct (is_valid_hostname_str_total s type Hs) as [b ->]. simpl. eauto. }
  unfold evaluate_parameters. case_bool_decide as Hempty; [left; by subst|].
  destruct (check_parameter_outcome rp "TicketLifetimeInHours"
              (λ v, Ok (negb (PyStr.isnumeric (py_str rd v))))) as [->| ->];
    [by eauto| |right; eexists; split; [|done]; in_list].
  destruct (check_parameter_outcome rp "Realm"
              (λ v, if negb (PyStr.isupper (py_str rd v)) then Ok true
                    else negb <$> is_valid_hostname v "DOMAIN")) as [->| ->];
    [intros v Hv; destruct (negb _); by eauto| |
     right; eexists; split; [|done]; in_list].
  destruct (check_parameter_outcome rp "Domain"
              (λ v, negb <$> is_valid_hostname v "DOMAIN")) as [->| ->];
    [by eauto| |right; eexists; split; [|done]; in_list].
  destruct (check_parameter_outcome rp "AdminServer"
              (λ v, negb <$> is_valid_hostname v "FQDN")) as [->| ->];
    [by eauto| |right; eexists; split; [|done]; in_list].
  destruct (check_parameter_outcome rp "KdcServer"
              (λ v, negb <$> is_valid_hostname v "FQDN")) as [->| ->];
    [by eauto| |right; eexists; split; [|done]; in_list].
  by left.
Qed.

(** C2: on the map that gives Domain the empty string the validator
    neither returns nor raises [ValueError]: the read of the last
    character raises [IndexError]. *)
Theorem evaluate_parameters_empty_domain rd :
  evaluate_parameters rd {["Domain" := VStr ""]} = Raise IndexError.
Proof. reflexivity. Qed.

(** Values outside the documented syntax that the validator accepts: a
    second colon segment that is not numeric, and a label followed by a
    newline. *)
Lemma evaluate_parameters_accepts_second_port rd :
  evaluate_parameters rd {["AdminServer" := VStr "kdc.example.com:88:abc"]}
  = Ok {["AdminServer" := VStr "kdc.example.com:88:abc"]}.
Proof. vm_compute. reflexivity. Qed.

Lemma evaluate_parameters_accepts_newline rd :
  let domain := VStr ("example.com" +:+ String Regex.newline "") in
  evaluate_parameters rd {["Domain" := domain]} = Ok {["Domain" := domain]}.
Proof. vm_compute. reflexivity. Qed.

(** ** The hostname validator *)

(** C3: the six test vectors, with the reason of each rejection: a
    single label, a label that starts with a hyphen, a port that is not
    numeric. *)
Theorem is_valid_hostname_vectors :
  is_valid_hostname (VStr "example.com") "DOMAIN" = Ok true
  ∧ is_valid_hostname (VStr "ex-ample.co") "DOMAIN" = Ok true
  ∧ is_valid_hostname (VStr "kdc.example.com:88") "FQDN" = Ok true
  ∧ (is_valid_hostname (VStr "EXAMPLE") "DOMAIN" = Ok false
     ∧ PyStr.split "."%char "EXAMPLE" = ["EXAMPLE"])
  ∧ (is_valid_hostname (VStr "-bad.com") "DOMAIN" = Ok false
     ∧ PyStr.split "."%char "-bad.com" = ["-bad"; "com"]
     ∧ Regex.not_hyphen_ahead (PyStr.chars "-bad") = false
     ∧ Regex.allowed_match "-bad" = false
     ∧ Regex.allowed_match "bad" = true)
  ∧ (is_valid_hostname (VStr "kdc.example.com:abc") "FQDN" = Ok false
     ∧ PyStr.split ":"%char "kdc.example.com:abc" = ["kdc.example.com"; "abc"]
     ∧ PyStr.isnumeric "abc" = false
     ∧ is_valid_hostname (VStr "kdc.example.com") "FQDN" = Ok true).
Proof. vm_compute. repeat split. Qed.

(** ** The cluster evaluator *)

Lemma evaluate_security_configuration_block rd rp ev cluster_id details block :
  kerberos_block details = Some block →
  evaluate_security_configuration rd rp ev cluster_id details =
    s ← smaller rp block "TicketLifetimeInHours";
    if s : bool then
      Ok (non_compliant cluster_id ev
            "TicketLifetimeInHours is smaller than the specified Rule parameter TicketLifetimeInHours.")
    else cross_realm_checks rd rp ev cluster_id block.
Proof.
  unfold kerberos_block. intros H.
  destruct details as [| | | |m]; try done.
  destruct (m !! "AuthenticationConfiguration") as [[| | | |auth]|] eqn:Hauth;
    try done.
  destruct (auth !! "KerberosConfiguration") as [[| | | |kerberos]|] eqn:Hk;
    try done.
  unfold evaluate_security_configuration, kerberos_not_enabled. simpl.
  rewrite Hauth. simpl. rewrite Hk. simpl. rewrite H. simpl.
  rewrite ?bool_decide_eq_true_2 by eauto. simpl.
  reflexivity.
Qed.

(** A running cluster with a configuration attached: two calls, and the
    verdict on the fetched document. *)
Lemma evaluate_cluster_fetch rd client ev rp cluster d name details log :
  describe_cluster client (Id cluster) = Ok d →
  State d ∉ terminated_states →
  SecurityConfiguration d = Some name →
  describe_security_configuration client name = Ok details →
  evaluate_cluster rd client ev rp cluster log =
    (evaluate_security_configuration rd rp ev (Id cluster) details,
     log ++ [DescribeCluster (Id cluster); DescribeSecurityConfiguration name]).
Proof.
  intros Hd Hstate Hname Hdoc. unfold evaluate_cluster.
  rewrite bind_run. unfold call at 1. rewrite Hd.
  rewrite bool_decide_eq_false_2 by done. rewrite Hname.
  rewrite bind_run. unfold call at 1. rewrite Hdoc. unfold lift.
  by rewrite <- app_assoc.
Qed.

Lemma differs_match rd (rp c : gmap string pyval) key :
  (∀ v, rp !! key = Some v →
        ∃ s x, v = VStr s ∧ c !! key = Some x ∧ py_str rd x = s) →
  differs rd rp (VDict c) key = Ok false.
Proof.
  intros H. unfold differs. destruct (rp !! key) as [v|]; [|done].
  destruct (H v eq_refl) as (s & x & -> & Hx & <-). simpl. rewrite Hx. simpl.
  by rewrite String.eqb_refl.
Qed.

(** With the cross-realm block present and every set parameter equal to
    the text of the document's field, the last stage answers COMPLIANT. *)
Lemma cross_realm_checks_match rd (rp b c : gmap string pyval) ev cluster_id :
  b !! "CrossRealmTrustConfiguration" = Some (VDict c) →
  (∀ key, key ∈ cross_realm_parameters → ∀ v, rp !! key = Some v →
          ∃ s x, v = VStr s ∧ c !! key = Some x ∧ py_str rd x = s) →
  cross_realm_checks rd rp ev cluster_id (VDict b) =
    Ok (build_evaluation cluster_id "COMPLIANT" ev DEFAULT_RESOURCE_TYPE None).
Proof.
  intros Hc Hmatch. unfold cross_realm_checks. simpl. rewrite Hc.
  rewrite ?bool_decide_eq_true_2 by eauto. simpl.
  rewrite !differs_match; [done|..]; apply Hmatch; in_list.
Qed.

(** C1: a running cluster whose document has the
    ClusterDedicatedKdcConfiguration block with an integer
    TicketLifetimeInHours, under an integer parameter
    TicketLifetimeInHours.  If the document's value is smaller the
    verdict is NON_COMPLIANT and the annotation names
    TicketLifetimeInHours; otherwise the verdict is the one of the
    cross-realm checks, which is COMPLIANT when the cross-realm block is
    present and every set parameter matches. *)
Theorem ticket_lifetime_check rd client ev (rp b : gmap string pyval)
    cluster d name details (t p : Z) log :
  describe_cluster client (Id cluster) = Ok d →
  State d ∉ terminated_states →
  SecurityConfiguration d = Some name →
  describe_security_configuration client name = Ok details →
  kerberos_block details = Some (VDict b) →
  b !! "TicketLifetimeInHours" = Some (VInt t) →
  rp !! "TicketLifetimeInHours" = Some (VInt p) →
  ((t < p)%Z →
     ∃ e, fst (evaluate_cluster rd client ev rp cluster log) = Ok e
          ∧ e !! "ComplianceResourceId" = Some (Id cluster)
          ∧ e !! "ComplianceType" = Some "NON_COMPLIANT"
          ∧ e !! "Annotation" =
              Some "TicketLifetimeInHours is smaller than the specified Rule parameter TicketLifetimeInHours.")
  ∧ ((p ≤ t)%Z →
       fst (evaluate_cluster rd client ev rp cluster log) =
         cross_realm_checks rd rp ev (Id cluster) (VDict b))
  ∧ ((p ≤ t)%Z →
       ∀ c : gmap string pyval,
         b !! "CrossRealmTrustConfiguration" = Some (VDict c) →
         (∀ key, key ∈ cross_realm_parameters → ∀ v, rp !! key = Some v →
                 ∃ s x, v = VStr s ∧ c !! key = Some x ∧ py_str rd x = s) →
         ∃ e, fst (evaluate_cluster rd client ev rp cluster log) = Ok e
              ∧ e !! "ComplianceResourceId" = Some (Id cluster)
              ∧ e !! "ComplianceType" = Some "COMPLIANT"
              ∧ e !! "Annotation" = None).
Proof.
  intros Hd Hstate Hname Hdoc Hblock Ht Hp.
  rewrite (evaluate_cluster_fetch _ _ _ _ _ _ _ _ _ Hd Hstate Hname Hdoc).
  simpl. rewrite (evaluate_security_configuration_block _ _ _ _ _ _ Hblock).
  unfold smaller. rewrite Hp. simpl. rewrite Ht. simpl.
  split; [|split].
  - intros Hlt. rewrite (proj2 (Z.ltb_lt t p) Hlt). simpl.
    eexists. split; [done|]. by vm_compute.
  - intros Hle. by rewrite (proj2 (Z.ltb_ge t p) Hle).
  - intros Hle c Hc Hmatch. rewrite (proj2 (Z.ltb_ge t p) Hle). simpl.
    rewrite (cross_realm_checks_match _ _ _ _ _ _ Hc Hmatch).
    eexists. split; [done|]. by vm_compute.
Qed.

(** C4: for a cluster that is terminating or terminated, whatever the
    parameters and the documents of the service, the evaluator answers
    NOT_APPLICABLE without an annotation, and the only call it makes is
    the description of the cluster: no security configuration is
    fetched. *)
Theorem terminated_not_applicable rd client ev (rp : gmap string pyval)
    cluster d log :
  describe_cluster client (Id cluster) = Ok d →
  State d ∈ terminated_states →
  ∃ e, evaluate_cluster rd client ev rp cluster log =
         (Ok e, log ++ [DescribeCluster (Id cluster)])
       ∧ e !! "ComplianceResourceId" = Some (Id cluster)
       ∧ e !! "ComplianceType" = Some "NOT_APPLICABLE"
       ∧ e !! "Annotation" = None.
Proof.
  intros Hd Hstate. unfold evaluate_cluster.
  rewrite bind_run. unfold call at 1. rewrite Hd.
  rewrite bool_decide_eq_true_2 by done.
  eexists. split; [reflexivity|]. by vm_compute.
Qed.

Lemma differs_missing rd (rp c : gmap string pyval) key :
  is_Some (rp !! key) → c !! key = None →
  differs rd rp (VDict c) key = Raise (KeyError (VStr key)).
Proof.
  intros [p Hp] Hc. unfold differs. rewrite Hp. simpl. by rewrite Hc.
Qed.

(** C10: with the ClusterDedicatedKdcConfiguration block present, a
    parameter that is set makes the evaluator read the field of the same
    name without a test of its presence.  When the block lacks
    TicketLifetimeInHours, or when the checks before it pass and the
    CrossRealmTrustConfiguration block lacks Realm, Domain, AdminServer
    or KdcServer, the outcome is the KeyError of that name and not an
    evaluation. *)
Theorem evaluator_unguarded_lookups rd ev (rp b : gmap string pyval)
    cluster_id details :
  kerberos_block details = Some (VDict b) →
  (is_Some (rp !! "TicketLifetimeInHours") →
   b !! "TicketLifetimeInHours" = None →
   evaluate_security_configuration rd rp ev cluster_id details =
     Raise (KeyError (VStr "TicketLifetimeInHours")))
  ∧ (∀ c : gmap string pyval,
       smaller rp (VDict b) "TicketLifetimeInHours" = Ok false →
       b !! "CrossRealmTrustConfiguration" = Some (VDict c) →
       (is_Some (rp !! "Realm") → c !! "Realm" = None →
        evaluate_security_configuration rd rp ev cluster_id details =
          Raise (KeyError (VStr "Realm")))
       ∧ (differs rd rp (VDict c) "Realm" = Ok false →
          is_Some (rp !! "Domain") → c !! "Domain" = None →
          evaluate_security_configuration rd rp ev cluster_id details =
            Raise (KeyError (VStr "Domain")))
       ∧ (differs rd rp (VDict c) "Realm" = Ok false →
          differs rd rp (VDict c) "Domain" = Ok false →
          is_Some (rp !! "AdminServer") → c !! "AdminServer" = None →
          evaluate_security_configuration rd rp ev cluster_id details =
            Raise (KeyError (VStr "AdminServer")))
       ∧ (differs rd rp (VDict c) "Realm" = Ok false →
          differs rd rp (VDict c) "Domain" = Ok false →
          differs rd rp (VDict c) "AdminServer" = Ok false →
          is_Some (rp !! "KdcServer") → c !! "KdcServer" = None →
          evaluate_security_configuration rd rp ev cluster_id details =
            Raise (KeyError (VStr "KdcServer")))).
Proof.
  intros Hblock.
  rewrite (evaluate_security_configuration_block _ _ _ _ _ _ Hblock).
  split.
  - intros [p Hp] Ht. unfold smaller. rewrite Hp. simpl. by rewrite Ht.
  - intros c Hs Hc. rewrite Hs. simpl.
    unfold cross_realm_checks. simpl. rewrite Hc.
    rewrite ?bool_decide_eq_true_2 by eauto. simpl.
    split; [|split; [|split]].
    + intros Hp Hk. by rewrite (differs_missing _ _ _ "Realm").
    + intros -> Hp Hk. simpl. by rewrite (differs_missing _ _ _ "Domain").
    + intros -> -> Hp Hk. simpl. by rewrite (differs_missing _ _ _ "AdminServer").
    + intros -> -> -> Hp Hk. simpl. by rewrite (differs_missing _ _ _ "KdcServer").
Qed.

(** A parameter TicketLifetimeInHours that is still a string cannot be
    compared with the document's integer. *)
Lemma ticket_lifetime_string_parameter rd ev (rp b : gmap string pyval)
    cluster_id details (t : Z) (s : string) :
  kerberos_block details = Some (VDict b) →
  b !! "TicketLifetimeInHours" = Some (VInt t) →
  rp !! "TicketLifetimeInHours" = Some (VStr s) →
  evaluate_security_configuration rd rp ev cluster_id details = Raise TypeError.
Proof.
  intros Hblock Ht Hp.
  rewrite (evaluate_security_configuration_block _ _ _ _ _ _ Hblock).
  unfold smaller. rewrite Hp. simpl. by rewrite Ht.
Qed.

(** ** The loop over the clusters *)

Lemma outcome_list_cluster_pages marker p :
  outcome (list_cluster_pages marker p) = page_clusters p.
Proof.
  revert marker. induction p as [cs|cs m next IH|e]; intros marker; simpl.
  - reflexivity.
  - rewrite outcome_bind_uniform;
      [|apply uniform_call
       |intros; apply uniform_bind;
          [apply uniform_list_cluster_pages|intros; apply uniform_ret]].
    change (outcome (call (ListClusters marker) (Ok ()))) with (Ok ()).
    simpl. rewrite outcome_bind_uniform;
      [|apply uniform_list_cluster_pages|intros; apply uniform_ret].
    rewrite IH. by destruct (page_clusters next).
  - reflexivity.
Qed.

Lemma outcome_for_each {A B : Type} (body : A → M B) (xs : list A) :
  (∀ x, uniform (body x)) →
  outcome (for_each body xs) = mapM (λ x, outcome (body x)) xs.
Proof.
  intros Hbody. induction xs as [|x xs IH]; simpl; [done|].
  rewrite outcome_bind_uniform;
    [|done|intros; apply uniform_bind;
             [by apply uniform_for_each|intros; apply uniform_ret]].
  destruct (outcome (body x)) as [y|e]; simpl; [|done].
  rewrite outcome_bind_uniform;
    [|by apply uniform_for_each|intros; apply uniform_ret].
  rewrite IH. by destruct (mapM _ xs).
Qed.

Lemma res_mapM_ok {A B : Type} (f : A → res B) (xs : list A) (ys : list B) :
  mapM f xs = Ok ys ↔ Forall2 (λ x y, f x = Ok y) xs ys.
Proof.
  revert ys. induction xs as [|x xs IH]; intros ys; simpl.
  - split; [intros [= <-]; constructor|by inversion 1].
  - split.
    + intros H. apply res_bind_ok in H as (y & Hy & H).
      apply res_bind_ok in H as (ys' & Hys & [= <-]).
      constructor; [done|]. by apply IH.
    + inversion 1 as [|? y ? ys' Hy Hys]; subst. rewrite Hy. simpl.
      apply IH in Hys. by rewrite Hys.
Qed.

(** What the whole loop returns, without the log. *)
Lemma outcome_evaluate_compliance rd client ev rp :
  outcome (evaluate_compliance rd client ev rp) =
    cluster_list ← page_clusters (list_clusters client);
    match cluster_list with
    | [] => Ok None
    | _ :: _ =>
        Some <$> mapM (λ c, outcome (evaluate_cluster rd client ev rp c))
                      cluster_list
    end.
Proof.
  unfold evaluate_compliance, get_all_cluster.
  rewrite outcome_bind_uniform; [|apply uniform_list_cluster_pages|].
  - rewrite outcome_list_cluster_pages.
    destruct (page_clusters _) as [[|c cs]|e]; cbn -[for_each mapM]; try done.
    rewrite outcome_bind_uniform;
      [|apply uniform_for_each; intros; apply uniform_evaluate_cluster
       |intros; apply uniform_ret].
    rewrite outcome_for_each by (intros; apply uniform_evaluate_cluster).
    by destruct (mapM _ _).
  - intros [|c cs]; [apply uniform_ret|].
    apply uniform_bind; [|intros; apply uniform_ret].
    apply uniform_for_each. intros. apply uniform_evaluate_cluster.
Qed.

#[local] Ltac split_ok H :=
  repeat match type of H with
         | (_ ≫= _) = Ok _ =>
             let H' := fresh "Hstep" in
             apply res_bind_ok in H as (? & H' & H)
         | (if ?b then _ else _) = Ok _ => destruct b
         end.

Lemma build_evaluation_id resource_id compliance_type ev resource_type annotation :
  build_evaluation resource_id compliance_type ev resource_type annotation
    !! "ComplianceResourceId" = Some resource_id.
Proof.
  unfold build_evaluation.
  destruct annotation as [a|]; [destruct (bool_decide (a = ""))|]; by vm_compute.
Qed.

Lemma cross_realm_checks_id rd rp ev cluster_id block e :
  cross_realm_checks rd rp ev cluster_id block = Ok e →
  e !! "ComplianceResourceId" = Some cluster_id.
Proof.
  unfold cross_realm_checks, non_compliant. intros H. split_ok H;
    injection H as <-; apply build_evaluation_id.
Qed.

Lemma evaluate_security_configuration_id rd rp ev cluster_id details e :
  evaluate_security_configuration rd rp ev cluster_id details = Ok e →
  e !! "ComplianceResourceId" = Some cluster_id.
Proof.
  unfold evaluate_security_configuration, non_compliant. intros H. split_ok H.
  - injection H as <-. apply build_evaluation_id.
  - injection H as <-. apply build_evaluation_id.
  - by eapply cross_realm_checks_id.
Qed.

(** Every evaluation of a cluster carries the identifier of that
    cluster. *)
Lemma evaluate_cluster_id rd client ev rp cluster e :
  outcome (evaluate_cluster rd client ev rp cluster) = Ok e →
  e !! "ComplianceResourceId" = Some (Id cluster).
Proof.
  unfold outcome, evaluate_cluster. rewrite bind_run. unfold call at 1.
  destruct (describe_cluster client (Id cluster)) as [d|err]; [|done].
  destruct (bool_decide _).
  { intros [= <-]. apply build_evaluation_id. }
  destruct (SecurityConfiguration d) as [name|].
  - rewrite bind_run. unfold call at 1.
    destruct (describe_security_configuration client name) as [doc|err];
      [|done].
    unfold lift. simpl. apply evaluate_security_configuration_id.
  - intros [= <-]. apply build_evaluation_id.
Qed.

Lemma evaluations_shape rd client ev (rp : gmap string pyval) cs evaluations :
  Forall2 (λ c e, outcome (evaluate_cluster rd client ev rp c) = Ok e)
          cs evaluations →
  List.length evaluations = List.length cs
  ∧ (λ e : evaluation, e !! "ComplianceResourceId") <$> evaluations
      = (λ c, Some (Id c)) <$> cs.
Proof.
  intros HF. split; [symmetry; by eapply Forall2_length|].
  induction HF as [|c e cs' es He _ IH]; [done|].
  rewrite !fmap_cons. f_equal; [|exact IH].
  by eapply evaluate_cluster_id.
Qed.

(** C6: when the pages of [list_clusters] hold no cluster the result is
    [None]; otherwise, when the evaluation of every cluster returns, the
    result is a list with exactly one evaluation per cluster, in the
    order of the clusters, each the evaluation of its cluster and
    carrying its identifier; and a list is never returned in any other
    shape. *)
Theorem one_evaluation_per_cluster rd client ev (rp : gmap string pyval)
    cs log :
  page_clusters (list_clusters client) = Ok cs →
  (cs = [] → fst (evaluate_compliance rd client ev rp log) = Ok None)
  ∧ (cs ≠ [] →
     (∀ c, c ∈ cs →
           ∃ e, outcome (evaluate_cluster rd client ev rp c) = Ok e) →
     ∃ evaluations,
       fst (evaluate_compliance rd client ev rp log) = Ok (Some evaluations)
       ∧ List.length evaluations = List.length cs
       ∧ (λ e : evaluation, e !! "ComplianceResourceId") <$> evaluations
           = (λ c, Some (Id c)) <$> cs
       ∧ Forall2 (λ c e, outcome (evaluate_cluster rd client ev rp c) = Ok e)
                 cs evaluations)
  ∧ (cs ≠ [] →
     ∀ r, fst (evaluate_compliance rd client ev rp log) = Ok r →
          ∃ evaluations,
            r = Some evaluations
            ∧ List.length evaluations = List.length cs
            ∧ (λ e : evaluation, e !! "ComplianceResourceId") <$> evaluations
                = (λ c, Some (Id c)) <$> cs).
Proof.
  intros Hpages.
  rewrite (fst_uniform _ log (uniform_evaluate_compliance rd client ev rp)).
  rewrite outcome_evaluate_compliance, Hpages. cbn -[mapM].
  pose proof (evaluations_shape rd client ev rp cs) as Hshape.
  split; [by intros ->|]. split.
  - intros Hne Hall. destruct cs as [|c cs']; [done|].
    assert (∃ evaluations,
              Forall2 (λ c e, outcome (evaluate_cluster rd client ev rp c) = Ok e)
                      (c :: cs') evaluations) as [evaluations HF].
    { clear Hshape Hne Hpages. induction (c :: cs') as [|x xs IH].
      - exists []. constructor.
      - destruct (Hall x) as [e He]; [left|].
        destruct IH as [es Hes]; [intros; apply Hall; by right|].
        exists (e :: es). by constructor. }
    exists evaluations.
    rewrite (proj2 (res_mapM_ok _ _ _) HF).
    destruct (Hshape _ HF). done.
  - intros Hne r Hr. destruct cs as [|c cs']; [done|].
    destruct (mapM _ (c :: cs')) as [evaluations|err] eqn:Hmap; [|done].
    injection Hr as <-. exists evaluations. split; [done|].
    apply Hshape. by apply res_mapM_ok.
Qed.


(** ** The clean-up of old evaluations *)

Lemma outcome_list_result_pages name token p :
  outcome (list_result_pages name token p) = page_results p.
Proof.
  revert token. induction p as [rs|rs t next IH|e]; intros token; simpl.
  - reflexivity.
  - rewrite outcome_bind_uniform;
      [|apply uniform_call
       |intros; apply uniform_bind;
          [apply uniform_list_result_pages|intros; apply uniform_ret]].
    change (outcome (call (GetComplianceDetailsByConfigRule name token) (Ok ())))
      with (Ok ()).
    simpl. rewrite outcome_bind_uniform;
      [|apply uniform_list_result_pages|intros; apply uniform_ret].
    rewrite IH. by destruct (page_results next).
  - reflexivity.
Qed.

Lemma newer_founded_ok old_resource_id latest :
  Forall (λ e : evaluation, is_Some (e !! "ComplianceResourceId")) latest →
  newer_founded old_resource_id latest =
    Ok (bool_decide (Some old_resource_id ∈ resource_ids latest)).
Proof.
  induction 1 as [|e latest [rid Hrid] _ IH]; simpl; [done|].
  rewrite Hrid, IH. simpl. f_equal.
  unfold resource_ids. rewrite ?fmap_cons, ?Hrid.
  rewrite <- bool_decide_or. apply bool_decide_ext.
  rewrite elem_of_cons. naive_solver.
Qed.

Lemma cleaned_evaluations_ok ev latest olds :
  Forall (λ e : evaluation, is_Some (e !! "ComplianceResourceId")) latest →
  cleaned_evaluations ev latest olds = Ok (stale_evaluations ev latest olds).
Proof.
  intros Hlatest. unfold stale_evaluations.
  induction olds as [|o olds IH]; simpl; [done|].
  rewrite newer_founded_ok by done. simpl. rewrite IH. simpl. f_equal.
  rewrite filter_cons. case_bool_decide as Hin; case_decide; done.
Qed.

Lemma uniform_clean_up_old_evaluations config latest ev :
  uniform (clean_up_old_evaluations config latest ev).
Proof.
  unfold clean_up_old_evaluations.
  apply uniform_bind; [apply uniform_list_result_pages|]. intros olds.
  apply uniform_bind; [apply uniform_lift|]. intros. apply uniform_ret.
Qed.

Lemma outcome_clean_up_old_evaluations config latest ev :
  outcome (clean_up_old_evaluations config latest ev) =
    old_eval_list ← page_results (get_compliance_details_by_config_rule config);
    cleaned ← cleaned_evaluations ev latest old_eval_list;
    Ok (cleaned ++ latest).
Proof.
  unfold clean_up_old_evaluations.
  rewrite outcome_bind_uniform; [|apply uniform_list_result_pages|].
  - rewrite outcome_list_result_pages.
    destruct (page_results _) as [olds|e]; simpl; [|done].
    rewrite outcome_bind_uniform;
      [|apply uniform_lift|intros; apply uniform_ret].
    by destruct (cleaned_evaluations ev latest olds).
  - intros olds. apply uniform_bind; [apply uniform_lift|].
    intros. apply uniform_ret.
Qed.

Lemma evaluations_for_app r l1 l2 :
  evaluations_for r (l1 ++ l2) = evaluations_for r l1 ++ evaluations_for r l2.
Proof. apply filter_app. Qed.

Lemma evaluations_for_absent r l :
  Some r ∉ resource_ids l → evaluations_for r l = [].
Proof.
  unfold evaluations_for, resource_ids. induction l as [|e l IH]; [done|].
  rewrite fmap_cons, not_elem_of_cons. intros [Hne Hl].
  rewrite filter_cons_False by congruence. by apply IH.
Qed.

Lemma length_evaluations_for_stale ev latest olds r :
  Some r ∉ resource_ids latest →
  List.length (evaluations_for r (stale_evaluations ev latest olds)) =
    List.length (filter (λ o, ResourceId o = r) olds).
Proof.
  intros Hr. unfold stale_evaluations, evaluations_for.
  induction olds as [|o olds IH]; [done|].
  rewrite !filter_cons. destruct (decide (ResourceId o = r)) as [Heq|Hne].
  - rewrite decide_True by (by rewrite Heq).
    rewrite fmap_cons, filter_cons_True; [simpl; by rewrite IH|].
    rewrite <- Heq. apply build_evaluation_id.
  - case_decide; [|done].
    rewrite fmap_cons, filter_cons_False; [done|].
    unfold not_applicable. rewrite build_evaluation_id. congruence.
Qed.

Lemma filter_eq_absent {A B : Type} `{EqDecision B} (f : A → B) (l : list A) r :
  r ∉ f <$> l → filter (λ o, f o = r) l = [].
Proof.
  induction l as [|o l IH]; [done|].
  rewrite fmap_cons, not_elem_of_cons. intros [Hne Hl].
  rewrite filter_cons_False by congruence. by apply IH.
Qed.

Lemma length_filter_NoDup {A B : Type} `{EqDecision B} (f : A → B) (l : list A) r :
  NoDup (f <$> l) → r ∈ f <$> l →
  List.length (filter (λ o, f o = r) l) = 1.
Proof.
  induction l as [|o l IH]; [by rewrite elem_of_nil|].
  rewrite fmap_cons, NoDup_cons, elem_of_cons. intros [Hnotin Hnd] Hr.
  rewrite filter_cons. case_decide as Heq.
  - subst r. by rewrite filter_eq_absent.
  - apply IH; [done|]. by destruct Hr as [->|].
Qed.

Lemma clean_up_old_evaluations_ok config ev (latest : list evaluation) olds log :
  page_results (get_compliance_details_by_config_rule config) = Ok olds →
  Forall (λ e : evaluation, is_Some (e !! "ComplianceResourceId")) latest →
  clean_up_old_evaluations config latest ev log =
    (Ok (stale_evaluations ev latest olds ++ latest),
     log ++ calls (clean_up_old_evaluations config latest ev)).
Proof.
  intros Hpages Hlatest.
  rewrite (uniform_clean_up_old_evaluations config latest ev log). f_equal.
  rewrite outcome_clean_up_old_evaluations, Hpages. simpl.
  by rewrite cleaned_evaluations_ok.
Qed.

(** C5, as the code has it: when every latest evaluation carries a
    resource identifier, the result is one synthesized NOT_APPLICABLE
    evaluation for each earlier result whose resource no latest
    evaluation is about, in the order of the earlier results, followed
    by the latest evaluations unchanged and in their order.  A resource
    that the earlier results name k times and no latest evaluation is
    about has k evaluations in the result, hence exactly one when the
    earlier results name no resource twice; and every evaluation in the
    result is about a resource of one of the two inputs. *)
Theorem clean_up_old_evaluations_result config ev
    (latest : list evaluation) olds log :
  page_results (get_compliance_details_by_config_rule config) = Ok olds →
  Forall (λ e : evaluation, is_Some (e !! "ComplianceResourceId")) latest →
  let result := stale_evaluations ev latest olds ++ latest in
  fst (clean_up_old_evaluations config latest ev log) = Ok result
  ∧ Forall (λ e : evaluation, e !! "ComplianceType" = Some "NOT_APPLICABLE")
           (stale_evaluations ev latest olds)
  ∧ (∀ r, Some r ∉ resource_ids latest →
          List.length (evaluations_for r result) =
            List.length (filter (λ o, ResourceId o = r) olds))
  ∧ (NoDup (ResourceId <$> olds) → one_per_stale_resource olds latest result)
  ∧ (∀ e, e ∈ result →
          ∃ r, e !! "ComplianceResourceId" = Some r
               ∧ (r ∈ ResourceId <$> olds ∨ Some r ∈ resource_ids latest)).
Proof.
  intros Hpages Hlatest result.
  assert (Hcount : ∀ r, Some r ∉ resource_ids latest →
            List.length (evaluations_for r result) =
              List.length (filter (λ o, ResourceId o = r) olds)).
  { intros r Hr. unfold result.
    rewrite evaluations_for_app, (evaluations_for_absent r latest Hr), app_nil_r.
    by apply length_evaluations_for_stale. }
  split; [|split; [|split; [|split]]].
  - by rewrite (clean_up_old_evaluations_ok _ _ _ _ _ Hpages Hlatest).
  - unfold stale_evaluations. apply Forall_fmap, Forall_forall.
    intros o _. by vm_compute.
  - exact Hcount.
  - intros Hnd r Hin Hr. rewrite Hcount by done.
    by apply length_filter_NoDup.
  - intros e. unfold result. rewrite elem_of_app. intros [He|He].
    + unfold stale_evaluations in He.
      apply list_elem_of_fmap_1 in He as (o & -> & Ho).
      apply list_elem_of_filter in Ho as [_ Ho].
      exists (ResourceId o). split; [apply build_evaluation_id|].
      left. by apply list_elem_of_fmap_2.
    + pose proof (proj1 (Forall_forall _ _) Hlatest e He) as [r Hr].
      exists r. split; [done|]. right. rewrite <- Hr.
      by apply (list_elem_of_fmap_2 (λ e : evaluation, e !! "ComplianceResourceId")).
Qed.

(** C5 as stated, with one evaluation per stale resource, fails: two
    earlier results about the same resource A and no latest evaluation
    give a result that holds two evaluations for A, not one. *)
Lemma clean_up_old_evaluations_duplicate :
  fst (clean_up_old_evaluations duplicate_config [] example_event []) =
    Ok [not_applicable example_event {| ResourceId := "A" |};
        not_applicable example_event {| ResourceId := "A" |}]
  ∧ List.length
      (evaluations_for "A"
         [not_applicable example_event {| ResourceId := "A" |};
          not_applicable example_event {| ResourceId := "A" |}]) = 2
  ∧ ¬ one_per_stale_resource
        [ {| ResourceId := "A" |}; {| ResourceId := "A" |} ] []
        [not_applicable example_event {| ResourceId := "A" |};
         not_applicable example_event {| ResourceId := "A" |}].
Proof.
  split; [reflexivity|]. split; [by vm_compute|].
  intros H. specialize (H "A").
  assert (Hlen : List.length
            (evaluations_for "A"
               [not_applicable example_event {| ResourceId := "A" |};
                not_applicable example_event {| ResourceId := "A" |}]) = 2)
    by (by vm_compute).
  rewrite Hlen in H. discriminate H.
  - apply list_elem_of_In. simpl. tauto.
  - apply not_elem_of_nil.
Qed.

(** ** The submission of the evaluations *)

Lemma submitted_app log1 log2 :
  submitted (log1 ++ log2) = submitted log1 ++ submitted log2.
Proof.
  induction log1 as [|c log1 IH]; [done|].
  destruct c; simpl; rewrite IH; by rewrite ?app_assoc.
Qed.

Lemma missing_fields_false e : missing_fields e = false ↔ complete e.
Proof.
  unfold missing_fields, complete, required_fields.
  rewrite !Forall_cons, Forall_nil. simpl. split.
  - intros H. repeat case_bool_decide; simpl in H; try congruence. done.
  - intros (H1 & H2 & H3 & H4 & _). by rewrite !bool_decide_eq_true_2.
Qed.

Lemma complete_evaluations_filter l :
  complete_evaluations l = filter (λ e, missing_fields e = false) l.
Proof.
  induction l as [|e l IH]; [done|]. simpl. rewrite filter_cons, IH.
  destruct (missing_fields e); by case_decide.
Qed.

Lemma elem_of_complete_evaluations l e :
  e ∈ complete_evaluations l ↔ e ∈ l ∧ complete e.
Proof.
  rewrite complete_evaluations_filter, list_elem_of_filter, missing_fields_false.
  tauto.
Qed.

Lemma build_evaluation_complete resource_id compliance_type ev resource_type
    annotation :
  complete (build_evaluation resource_id compliance_type ev resource_type
              annotation).
Proof.
  apply missing_fields_false. unfold build_evaluation.
  destruct annotation as [a|]; [destruct (bool_decide (a = ""))|]; by vm_compute.
Qed.

Lemma complete_has_id e : complete e → is_Some (e !! "ComplianceResourceId").
Proof.
  unfold complete, required_fields. rewrite !Forall_cons. tauto.
Qed.

(** When the service accepts every batch, the loop submits the whole
    list, in order, and leaves nothing. *)
Lemma submit_all config result_token test_mode evaluations log :
  (∀ batch, put_evaluations config batch = Ok ()) →
  ∃ log', submit config result_token test_mode evaluations log = (Ok [], log')
          ∧ submitted log' = submitted log ++ evaluations.
Proof.
  intros Hput. remember (List.length evaluations) as n eqn:Hn.
  revert evaluations log Hn.
  induction n as [n IH] using lt_wf_ind. intros evaluations log Hn.
  destruct evaluations as [|e rest].
  - simp submit. exists log. split; [done|]. by rewrite app_nil_r.
  - simp submit. rewrite bind_run. unfold call at 1. rewrite Hput.
    edestruct (IH (List.length (drop 100 (e :: rest)))) as (log' & Hrun & Hsub);
      [|reflexivity|].
    + subst n. rewrite length_drop. simpl. lia.
    + exists log'. split; [exact Hrun|]. rewrite Hsub.
      rewrite submitted_app. simpl. rewrite app_nil_r, <- app_assoc.
      f_equal. apply (take_drop 100 (e :: rest)).
Qed.

Lemma submitted_list_result_pages name token p log :
  submitted (snd (list_result_pages name token p log)) = submitted log.
Proof.
  revert token log. induction p as [rs|rs t next IH|e]; intros token log; simpl.
  - unfold call. simpl. by rewrite submitted_app, app_nil_r.
  - rewrite bind_run. unfold call at 1. cbn beta iota. rewrite bind_run.
    specialize (IH (Some t) (log ++ [GetComplianceDetailsByConfigRule name token])).
    destruct (list_result_pages name (Some t) next _) as [[rest|e] log'];
      simpl in *; rewrite IH, submitted_app; simpl; by rewrite app_nil_r.
  - unfold call. simpl. by rewrite submitted_app, app_nil_r.
Qed.

(** The clean-up submits nothing. *)
Lemma submitted_clean_up_old_evaluations config latest ev log :
  submitted (snd (clean_up_old_evaluations config latest ev log)) = submitted log.
Proof.
  unfold clean_up_old_evaluations. rewrite bind_run.
  pose proof (submitted_list_result_pages (configRuleName ev) None
                (get_compliance_details_by_config_rule config) log) as Hpages.
  destruct (list_result_pages _ _ _ _) as [[rs|e] log']; simpl in *; [|done].
  rewrite bind_run. unfold lift.
  by destruct (cleaned_evaluations ev latest rs).
Qed.

(** C7: for every list result, when the Config service answers, the
    handler ends normally and what it submits is a batch in which
    every evaluation has the four required fields and in which every
    evaluation of the list that has them is kept; for a non-empty list
    the batch is the synthesized evaluations followed by the complete
    evaluations of the list in their order, so the evaluations that
    lack a field are the only ones dropped. *)
Theorem incomplete_evaluations_dropped config ev configuration_item
    (l : list evaluation) olds log :
  page_results (get_compliance_details_by_config_rule config) = Ok olds →
  (∀ batch, put_evaluations config batch = Ok ()) →
  ∃ batch,
    fst (report config ev configuration_item (ResultList l) log) = Ok []
    ∧ submitted (snd (report config ev configuration_item (ResultList l) log))
        = submitted log ++ batch
    ∧ (∀ e, e ∈ batch → complete e)
    ∧ (∀ e, e ∈ l → complete e → e ∈ batch)
    ∧ (l ≠ [] →
       batch = stale_evaluations ev (complete_evaluations l) olds
               ++ filter complete l
       ∧ ∀ e, e ∈ l → ¬ complete e → e ∉ batch).
Proof.
  intros Hpages Hput.
  set (latest := if bool_decide (l = [])
                 then [build_evaluation (accountId ev) "NOT_APPLICABLE" ev
                         "AWS::::Account" None]
                 else complete_evaluations l).
  assert (Hlatest : Forall complete latest).
  { unfold latest. case_bool_decide.
    - constructor; [apply build_evaluation_complete|constructor].
    - apply Forall_forall. intros e He.
      by apply elem_of_complete_evaluations in He as [_ He]. }
  assert (Hids : Forall (λ e : evaluation, is_Some (e !! "ComplianceResourceId"))
                        latest).
  { eapply Forall_impl; [exact Hlatest|]. apply complete_has_id. }
  assert (Hto : evaluations_to_report config ev configuration_item (ResultList l)
                = clean_up_old_evaluations config latest ev).
  { unfold evaluations_to_report, latest. simpl. by case_bool_decide. }
  pose proof (clean_up_old_evaluations_ok config ev latest olds log
                Hpages Hids) as Hrun.
  exists (stale_evaluations ev latest olds ++ latest).
  unfold report. rewrite bind_run, Hto, Hrun.
  destruct (submit_all config (resultToken ev)
              (bool_decide (resultToken ev = "TESTMODE"))
              (stale_evaluations ev latest olds ++ latest)
              (log ++ calls (clean_up_old_evaluations config latest ev)) Hput)
    as (log' & -> & Hsub).
  simpl. split; [done|]. split.
  { rewrite Hsub. f_equal.
    rewrite <- (submitted_clean_up_old_evaluations config latest ev log).
    by rewrite (uniform_clean_up_old_evaluations config latest ev log). }
  split; [|split].
  - intros e. rewrite elem_of_app. intros [He|He].
    + apply list_elem_of_fmap_1 in He as (o & -> & _).
      apply build_evaluation_complete.
    + by apply (proj1 (Forall_forall _ _) Hlatest).
  - intros e He Hc. apply elem_of_app. right. unfold latest.
    rewrite bool_decide_eq_false_2 by (intros ->; by apply elem_of_nil in He).
    by apply elem_of_complete_evaluations.
  - intros Hne. unfold latest. rewrite bool_decide_eq_false_2 by done.
    split.
    + f_equal. rewrite complete_evaluations_filter.
      apply list_filter_iff. intros e. apply missing_fields_false.
    + intros e He Hnc. rewrite elem_of_app. intros [Hin|Hin].
      * apply list_elem_of_fmap_1 in Hin as (o & -> & _).
        apply Hnc, build_evaluation_complete.
      * by apply elem_of_complete_evaluations in Hin as [_ Hin].
Qed.

(** * The theorems at the example inputs *)

(** The document says ten hours: NON_COMPLIANT under a parameter of 24,
    COMPLIANT under a parameter of 5 with the realm matching. *)
Lemma ticket_lifetime_check_witness :
  (∃ e, fst (evaluate_cluster example_repr example_client example_event
               (example_parameters 24) {| Id := "j-1" |} []) = Ok e
        ∧ e !! "ComplianceResourceId" = Some "j-1"
        ∧ e !! "ComplianceType" = Some "NON_COMPLIANT"
        ∧ e !! "Annotation" =
            Some "TicketLifetimeInHours is smaller than the specified Rule parameter TicketLifetimeInHours.")
  ∧ (∃ e, fst (evaluate_cluster example_repr example_client example_event
                 (example_parameters 5) {| Id := "j-1" |} []) = Ok e
          ∧ e !! "ComplianceResourceId" = Some "j-1"
          ∧ e !! "ComplianceType" = Some "COMPLIANT"
          ∧ e !! "Annotation" = None).
Proof.
  split.
  - refine (proj1 (ticket_lifetime_check example_repr example_client
                     example_event (example_parameters 24) example_block
                     {| Id := "j-1" |}
                     {| State := "RUNNING";
                        SecurityConfiguration := Some "kerberos-sc" |}
                     "kerberos-sc" example_document 10 24 [] _ _ _ _ _ _ _) _);
      [reflexivity|compute_done|reflexivity|reflexivity|reflexivity
      |reflexivity|reflexivity|lia].
  - refine (proj2 (proj2 (ticket_lifetime_check example_repr example_client
                     example_event (example_parameters 5) example_block
                     {| Id := "j-1" |}
                     {| State := "RUNNING";
                        SecurityConfiguration := Some "kerberos-sc" |}
                     "kerberos-sc" example_document 10 5 [] _ _ _ _ _ _ _))
                  _ example_cross_realm _ _);
      [reflexivity|compute_done|reflexivity|reflexivity|reflexivity
      |reflexivity|reflexivity|lia|reflexivity|].
    intros key Hin v Hv.
    repeat (apply elem_of_cons in Hin as [->|Hin]);
      [|vm_compute in Hv; discriminate Hv..|by apply elem_of_nil in Hin].
    vm_compute in Hv. injection Hv as <-.
    exists "AD.DOMAIN.COM", (VStr "AD.DOMAIN.COM"). repeat split.
Defined.

Lemma terminated_not_applicable_witness :
  ∃ e, evaluate_cluster example_repr example_client example_event
         (example_parameters 24) {| Id := "j-2" |} []
       = (Ok e, [DescribeCluster "j-2"])
       ∧ e !! "ComplianceResourceId" = Some "j-2"
       ∧ e !! "ComplianceType" = Some "NOT_APPLICABLE"
       ∧ e !! "Annotation" = None.
Proof.
  refine (terminated_not_applicable example_repr example_client example_event
            (example_parameters 24) {| Id := "j-2" |}
            {| State := "TERMINATED"; SecurityConfiguration := None |} [] _ _);
    [reflexivity|compute_done].
Defined.

(** A document whose Kerberos block is present and empty but for an
    empty cross-realm block. *)
Lemma evaluator_unguarded_lookups_witness :
  evaluate_security_configuration example_repr
    {[ "TicketLifetimeInHours" := VInt 24 ]} example_event "j-1"
    (document_of_block {[ "CrossRealmTrustConfiguration" := VDict ∅ ]})
  = Raise (KeyError (VStr "TicketLifetimeInHours"))
  ∧ evaluate_security_configuration example_repr
      {[ "Realm" := VStr "AD.DOMAIN.COM" ]} example_event "j-1"
      (document_of_block {[ "CrossRealmTrustConfiguration" := VDict ∅ ]})
    = Raise (KeyError (VStr "Realm")).
Proof.
  split.
  - refine (proj1 (evaluator_unguarded_lookups example_repr example_event
                     {[ "TicketLifetimeInHours" := VInt 24 ]}
                     {[ "CrossRealmTrustConfiguration" := VDict ∅ ]}
                     "j-1" _ _) _ _);
      [reflexivity|by eexists|reflexivity].
  - refine (proj1 (proj2 (evaluator_unguarded_lookups example_repr example_event
                     {[ "Realm" := VStr "AD.DOMAIN.COM" ]}
                     {[ "CrossRealmTrustConfiguration" := VDict ∅ ]}
                     "j-1" _ _) ∅ _ _) _ _);
      [reflexivity|reflexivity|reflexivity|by eexists|reflexivity].
Defined.

(** Raw strings, and a key that the rule does not know. *)
Lemma evaluate_parameters_returns_input_witness :
  evaluate_parameters example_repr
    {[ "TicketLifetimeInHours" := VStr "24"; "Realm" := VStr "AD.DOMAIN.COM" ]}
  = Ok {[ "TicketLifetimeInHours" := VStr "24"; "Realm" := VStr "AD.DOMAIN.COM" ]}
  ∧ evaluate_parameters example_repr
      (<["Owner" := VStr "security team"]>
         {[ "TicketLifetimeInHours" := VStr "24"; "Realm" := VStr "AD.DOMAIN.COM" ]})
    = Ok (<["Owner" := VStr "security team"]>
            {[ "TicketLifetimeInHours" := VStr "24"; "Realm" := VStr "AD.DOMAIN.COM" ]}).
Proof.
  split; [vm_compute; reflexivity|].
  refine (proj1 (proj2 (proj2 (evaluate_parameters_returns_input example_repr
            {[ "TicketLifetimeInHours" := VStr "24"; "Realm" := VStr "AD.DOMAIN.COM" ]}
            {[ "TicketLifetimeInHours" := VStr "24"; "Realm" := VStr "AD.DOMAIN.COM" ]}
            _))) "Owner" (VStr "security team") _);
    [vm_compute; reflexivity|compute_done].
Defined.

Lemma one_evaluation_per_cluster_witness :
  ∃ evaluations,
    fst (evaluate_compliance example_repr example_client example_event
           (example_parameters 24) []) = Ok (Some evaluations)
    ∧ List.length evaluations = 2
    ∧ (λ e : evaluation, e !! "ComplianceResourceId") <$> evaluations
        = [Some "j-1"; Some "j-2"]
    ∧ Forall2 (λ c e, outcome (evaluate_cluster example_repr example_client
                                 example_event (example_parameters 24) c) = Ok e)
              [ {| Id := "j-1" |}; {| Id := "j-2" |} ] evaluations.
Proof.
  refine (proj1 (proj2 (one_evaluation_per_cluster example_repr example_client
            example_event (example_parameters 24)
            [ {| Id := "j-1" |}; {| Id := "j-2" |} ] [] _)) _ _);
    [reflexivity|discriminate|].
  intros c Hin.
  repeat (apply elem_of_cons in Hin as [->|Hin]);
    [eexists; vm_compute; reflexivity..|by apply elem_of_nil in Hin].
Defined.

(** The earlier results are about j-0 and j-1, the latest evaluation
    about j-1. *)
Lemma clean_up_old_evaluations_result_witness :
  fst (clean_up_old_evaluations example_config
         [build_evaluation "j-1" "COMPLIANT" example_event DEFAULT_RESOURCE_TYPE None]
         example_event [])
  = Ok [not_applicable example_event {| ResourceId := "j-0" |};
        build_evaluation "j-1" "COMPLIANT" example_event DEFAULT_RESOURCE_TYPE None]
  ∧ one_per_stale_resource
      [ {| ResourceId := "j-0" |}; {| ResourceId := "j-1" |} ]
      [build_evaluation "j-1" "COMPLIANT" example_event DEFAULT_RESOURCE_TYPE None]
      [not_applicable example_event {| ResourceId := "j-0" |};
       build_evaluation "j-1" "COMPLIANT" example_event DEFAULT_RESOURCE_TYPE None].
Proof.
  assert (Hids : Forall (λ e : evaluation, is_Some (e !! "ComplianceResourceId"))
            [build_evaluation "j-1" "COMPLIANT" example_event
               DEFAULT_RESOURCE_TYPE None]).
  { constructor; [|constructor]. by eexists. }
  destruct (clean_up_old_evaluations_result example_config example_event
              [build_evaluation "j-1" "COMPLIANT" example_event
                 DEFAULT_RESOURCE_TYPE None]
              [ {| ResourceId := "j-0" |}; {| ResourceId := "j-1" |} ] []
              eq_refl Hids) as (Hresult & _ & _ & Hone & _).
  split; [exact Hresult|]. apply Hone. compute_done.
Defined.

(** A list result with a complete evaluation and an empty dict. *)
Lemma incomplete_evaluations_dropped_witness :
  ∃ batch,
    fst (report example_config example_event None
           (ResultList [build_evaluation "j-1" "COMPLIANT" example_event
                          DEFAULT_RESOURCE_TYPE None; ∅]) []) = Ok []
    ∧ submitted (snd (report example_config example_event None
           (ResultList [build_evaluation "j-1" "COMPLIANT" example_event
                          DEFAULT_RESOURCE_TYPE None; ∅]) [])) = batch
    ∧ build_evaluation "j-1" "COMPLIANT" example_event DEFAULT_RESOURCE_TYPE None
        ∈ batch
    ∧ (∅ : evaluation) ∉ batch.
Proof.
  destruct (incomplete_evaluations_dropped example_config example_event None
              [build_evaluation "j-1" "COMPLIANT" example_event
                 DEFAULT_RESOURCE_TYPE None; ∅]
              [ {| ResourceId := "j-0" |}; {| ResourceId := "j-1" |} ] []
              eq_refl (λ _, eq_refl))
    as (batch & Hfst & Hsub & _ & Hkept & Hdropped).
  exists batch. split; [exact Hfst|]. split; [exact Hsub|]. split.
  - apply Hkept; [left|]. apply build_evaluation_complete.
  - apply Hdropped; [discriminate|right; left|].
    intros Hc. apply complete_has_id in Hc as [x Hx]. discriminate Hx.
Defined.


(** * Further properties *)

(** ** Strings and the hostname validator *)


Lemma of_chars_chars s : PyStr.of_chars (PyStr.chars s) = s.
Proof. induction s as [|c s IH]; simpl; by rewrite ?IH. Qed.

Lemma chars_app s t : PyStr.chars (s +:+ t) = PyStr.chars s ++ PyStr.chars t.
Proof. induction s as [|c s IH]; simpl; by rewrite ?IH. Qed.

Lemma len_chars s : PyStr.len s = List.length (PyStr.chars s).
Proof. unfold PyStr.len. induction s as [|c s IH]; simpl; by rewrite ?IH. Qed.

Lemma chars_nil s : PyStr.chars s = [] → s = "".
Proof. by destruct s. Qed.

Lemma last_char_ok s c : PyStr.last_char s = Ok c ↔ last (PyStr.chars s) = Some c.
Proof.
  unfold PyStr.last_char. destruct (last (PyStr.chars s)); naive_solver.
Qed.









(** X3: one trailing dot is dropped before anything else is looked at:
    with a dot appended, a non-empty string that does not end with a dot
    and has fewer than 255 characters is judged as it is without. *)
Theorem is_valid_hostname_trailing_dot s type :
  s ≠ "" → last (PyStr.chars s) ≠ Some "."%char → (PyStr.len s < 255)%nat →
  is_valid_hostname (VStr (s +:+ ".")) type = is_valid_hostname (VStr s) type.
Proof.
  intros Hne Hlast Hlen. simpl. unfold is_valid_hostname_str.
  assert (Hlen' : PyStr.len (s +:+ ".") = S (PyStr.len s)).
  { rewrite !len_chars, chars_app, length_app. simpl. lia. }
  rewrite Hlen'.
  rewrite (proj2 (Nat.ltb_ge 255 (S (PyStr.len s)))) by lia.
  rewrite (proj2 (Nat.ltb_ge 255 (PyStr.len s))) by lia.
  assert (Hdot : PyStr.last_char (s +:+ ".") = Ok "."%char).
  { apply last_char_ok. rewrite chars_app. simpl. by rewrite last_snoc. }
  assert (Hdrop : PyStr.drop_last (s +:+ ".") = s).
  { unfold PyStr.drop_last. rewrite chars_app. simpl.
    by rewrite removelast_last, of_chars_chars. }
  rewrite Hdot. simpl. rewrite Hdrop.
  destruct (last_char_nonempty s Hne) as [c Hc]. rewrite Hc. simpl.
  apply last_char_ok in Hc.
  rewrite (bool_decide_eq_false_2 (c = "."%char)) by congruence.
  reflexivity.
Qed.

(** ** The parameter validator, continued *)

Lemma check_parameter_passed (rp : gmap string pyval) key f x :
  check_parameter rp key f = Ok tt → rp !! key = Some x → f x = Ok false.
Proof.
  unfold check_parameter. intros H Hx. rewrite Hx in H.
  destruct (f x) as [[]|e]; simpl in H; congruence.
Qed.

Lemma negb_fmap_ok (r : res bool) : negb <$> r = Ok false → r = Ok true.
Proof. destruct r as [[]|e]; simpl; congruence. Qed.

(** X4: a mapping that the validator accepts satisfies every test of a
    parameter it holds: the text of TicketLifetimeInHours is numeric,
    the text of Realm is upper case and Realm is a valid DOMAIN name,
    Domain is a valid DOMAIN name, AdminServer and KdcServer are valid
    FQDN names. *)
Theorem evaluate_parameters_sound rd (rp v : gmap string pyval) :
  evaluate_parameters rd rp = Ok v →
  (∀ x, rp !! "TicketLifetimeInHours" = Some x →
        PyStr.isnumeric (py_str rd x) = true)
  ∧ (∀ x, rp !! "Realm" = Some x →
          PyStr.isupper (py_str rd x) = true
          ∧ is_valid_hostname x "DOMAIN" = Ok true)
  ∧ (∀ x, rp !! "Domain" = Some x → is_valid_hostname x "DOMAIN" = Ok true)
  ∧ (∀ x, rp !! "AdminServer" = Some x → is_valid_hostname x "FQDN" = Ok true)
  ∧ (∀ x, rp !! "KdcServer" = Some x → is_valid_hostname x "FQDN" = Ok true).
Proof.
  intros [_ Hchecks]%evaluate_parameters_ok.
  unfold parameter_checks in Hchecks.
  rewrite !Forall_cons in Hchecks. simpl in Hchecks.
  destruct Hchecks as (H1 & H2 & H3 & H4 & H5 & _).
  split; [|split; [|split; [|split]]]; intros x Hx.
  - pose proof (check_parameter_passed _ _ _ _ H1 Hx) as [= H].
    by apply negb_false_iff.
  - pose proof (check_parameter_passed _ _ _ _ H2 Hx) as H. simpl in H.
    destruct (PyStr.isupper (py_str rd x)); simpl in H; [|done].
    split; [done|]. by apply negb_fmap_ok.
  - by apply negb_fmap_ok, (check_parameter_passed _ _ _ _ H3 Hx).
  - by apply negb_fmap_ok, (check_parameter_passed _ _ _ _ H4 Hx).
  - by apply negb_fmap_ok, (check_parameter_passed _ _ _ _ H5 Hx).
Qed.

Lemma pretty_N_char_numeric x : PyStr.numeric_char (pretty_N_char x) = true.
Proof. unfold pretty_N_char. by repeat case_match. Qed.

Lemma pretty_N_go_numeric x s :
  s ≠ "" → forallb PyStr.numeric_char (PyStr.chars s) = true →
  pretty_N_go x s ≠ ""
  ∧ forallb PyStr.numeric_char (PyStr.chars (pretty_N_go x s)) = true.
Proof.
  revert s. induction (N.lt_wf_0 x) as [x _ IH]; intros s Hne Hs.
  assert (x = 0 ∨ 0 < x)%N as [->|Hpos] by lia.
  - by rewrite pretty_N_go_0.
  - rewrite pretty_N_go_step by done. apply IH.
    + by apply N.div_lt.
    + done.
    + simpl. by rewrite pretty_N_char_numeric.
Qed.

Lemma isnumeric_pretty_N (x : N) : PyStr.isnumeric (pretty x) = true.
Proof.
  unfold pretty, pretty_N. case_decide as Hx; [done|].
  assert (0 < x)%N as Hpos by lia.
  rewrite pretty_N_go_step by done.
  destruct (pretty_N_go_numeric (x `div` 10)
              (String (pretty_N_char (x `mod` 10)) "")) as [Hne Hall].
  - done.
  - simpl. by rewrite pretty_N_char_numeric.
  - unfold PyStr.isnumeric. rewrite Hall.
    by rewrite bool_decide_eq_false_2.
Qed.

(** The decimal text of an integer is numeric exactly when the integer
    is not negative: a minus sign is not a numeric character. *)
Lemma isnumeric_pretty_Z (z : Z) :
  PyStr.isnumeric (pretty z) = bool_decide (0 ≤ z)%Z.
Proof.
  destruct z as [|p|p]; [done| |].
  - rewrite bool_decide_eq_true_2 by lia. apply (isnumeric_pretty_N (Npos p)).
  - rewrite bool_decide_eq_false_2 by lia. reflexivity.
Qed.

(** X5: a TicketLifetimeInHours given as a JSON integer is rejected, by
    name, when it is negative, whatever the other parameters are; alone
    in the mapping it is accepted when it is not negative. *)
Theorem evaluate_parameters_integer_lifetime rd (z : Z) :
  (∀ rp : gmap string pyval,
     rp !! "TicketLifetimeInHours" = Some (VInt z) → (z < 0)%Z →
     evaluate_parameters rd rp = Raise (ValueError "TicketLifetimeInHours"))
  ∧ ((0 ≤ z)%Z →
     evaluate_parameters rd {[ "TicketLifetimeInHours" := VInt z ]}
     = Ok {[ "TicketLifetimeInHours" := VInt z ]}).
Proof.
  split.
  - intros rp Hrp Hz. unfold evaluate_parameters.
    rewrite bool_decide_eq_false_2
      by (intros ->; by rewrite lookup_empty in Hrp).
    unfold check_parameter. rewrite Hrp. simpl.
    rewrite isnumeric_pretty_Z, bool_decide_eq_false_2 by lia. done.
  - intros Hz. apply evaluate_parameters_ok. split; [done|].
    unfold parameter_checks. rewrite !Forall_cons, Forall_nil. simpl.
    split; [|repeat split].
    unfold check_parameter. rewrite lookup_singleton_eq. simpl.
    by rewrite isnumeric_pretty_Z, bool_decide_eq_true_2.
Qed.

(** ** The cluster evaluator, continued *)

Lemma evaluate_cluster_unattached rd client ev (rp : gmap string pyval)
    cluster d log :
  describe_cluster client (Id cluster) = Ok d →
  State d ∉ terminated_states →
  SecurityConfiguration d = None →
  evaluate_cluster rd client ev rp cluster log =
    (Ok (non_compliant (Id cluster) ev "No Security Configuration is attached."),
     log ++ [DescribeCluster (Id cluster)]).
Proof.
  intros Hd Hstate Hname. unfold evaluate_cluster.
  rewrite bind_run. unfold call at 1. rewrite Hd.
  rewrite bool_decide_eq_false_2 by done. by rewrite Hname.
Qed.

(** X6: a cluster that is not terminated and has no security
    configuration attached is NON_COMPLIANT with the annotation "No
    Security Configuration is attached.", whatever the parameters, and
    only the cluster is described. *)
Theorem no_security_configuration rd client ev (rp : gmap string pyval)
    cluster d log :
  describe_cluster client (Id cluster) = Ok d →
  State d ∉ terminated_states →
  SecurityConfiguration d = None →
  ∃ e, evaluate_cluster rd client ev rp cluster log =
         (Ok e, log ++ [DescribeCluster (Id cluster)])
       ∧ e !! "ComplianceResourceId" = Some (Id cluster)
       ∧ e !! "ComplianceType" = Some "NON_COMPLIANT"
       ∧ e !! "Annotation" = Some "No Security Configuration is attached.".
Proof.
  intros Hd Hstate Hname.
  rewrite (evaluate_cluster_unattached _ _ _ _ _ _ _ Hd Hstate Hname).
  eexists. split; [reflexivity|]. by vm_compute.
Qed.

Lemma kerberos_not_enabled_missing m :
  kerberos_missing m → kerberos_not_enabled (VDict m) = Ok true.
Proof.
  unfold kerberos_not_enabled. simpl.
  intros [Hm|(auth & Hm & [Ha|(kerberos & Ha & Hk)])].
  - by rewrite Hm.
  - rewrite Hm. simpl. by rewrite Ha.
  - rewrite Hm. simpl. rewrite Ha. simpl. by rewrite Hk.
Qed.

(** X7: when the document lacks AuthenticationConfiguration, or
    KerberosConfiguration in it, or ClusterDedicatedKdcConfiguration in
    that, the cluster is NON_COMPLIANT with the annotation "Kerberos
    Authentication is not enabled in the Security Configuration.",
    whatever the parameters. *)
Theorem kerberos_missing_non_compliant rd client ev (rp m : gmap string pyval)
    cluster d name log :
  describe_cluster client (Id cluster) = Ok d →
  State d ∉ terminated_states →
  SecurityConfiguration d = Some name →
  describe_security_configuration client name = Ok (VDict m) →
  kerberos_missing m →
  ∃ e, fst (evaluate_cluster rd client ev rp cluster log) = Ok e
       ∧ e !! "ComplianceResourceId" = Some (Id cluster)
       ∧ e !! "ComplianceType" = Some "NON_COMPLIANT"
       ∧ e !! "Annotation" =
           Some "Kerberos Authentication is not enabled in the Security Configuration.".
Proof.
  intros Hd Hstate Hname Hdoc Hmissing.
  rewrite (evaluate_cluster_fetch _ _ _ _ _ _ _ _ _ Hd Hstate Hname Hdoc).
  unfold evaluate_security_configuration.
  rewrite (kerberos_not_enabled_missing _ Hmissing). simpl.
  eexists. split; [reflexivity|]. by vm_compute.
Qed.

(** X8: a ClusterDedicatedKdcConfiguration block without
    CrossRealmTrustConfiguration makes the cluster NON_COMPLIANT once the
    ticket lifetime test passes, also when no parameter at all is set. *)
Theorem cross_realm_missing_non_compliant rd client ev (rp b : gmap string pyval)
    cluster d name details log :
  describe_cluster client (Id cluster) = Ok d →
  State d ∉ terminated_states →
  SecurityConfiguration d = Some name →
  describe_security_configuration client name = Ok details →
  kerberos_block details = Some (VDict b) →
  smaller rp (VDict b) "TicketLifetimeInHours" = Ok false →
  b !! "CrossRealmTrustConfiguration" = None →
  ∃ e, fst (evaluate_cluster rd client ev rp cluster log) = Ok e
       ∧ e !! "ComplianceResourceId" = Some (Id cluster)
       ∧ e !! "ComplianceType" = Some "NON_COMPLIANT"
       ∧ e !! "Annotation" =
           Some "CrossRealmTrustConfiguration is not configured in security configuration.".
Proof.
  intros Hd Hstate Hname Hdoc Hblock Hsmaller Hcross.
  rewrite (evaluate_cluster_fetch _ _ _ _ _ _ _ _ _ Hd Hstate Hname Hdoc).
  simpl. rewrite (evaluate_security_configuration_block _ _ _ _ _ _ Hblock).
  rewrite Hsmaller. simpl. unfold cross_realm_checks. simpl. rewrite Hcross.
  rewrite ?bool_decide_eq_false_2 by (by intros [??]). simpl.
  eexists. split; [reflexivity|]. by vm_compute.
Qed.

Lemma differs_mismatch rd (rp c : gmap string pyval) key :
  (is_Some (rp !! key) → is_Some (c !! key)) →
  differs rd rp (VDict c) key = Ok (mismatch rd rp c key).
Proof.
  unfold differs, mismatch. intros H.
  destruct (rp !! key) as [p|]; [|done].
  destruct H as [v Hv]; [by eexists|]. simpl. by rewrite Hv.
Qed.

(** X9: when the cross-realm block holds the field of every parameter
    that is set, the verdict of the last stage is decided by the first
    of Realm, Domain, AdminServer, KdcServer whose text in the block is
    not the parameter: NON_COMPLIANT with the annotation of that
    parameter, and COMPLIANT when there is none. *)
Theorem cross_realm_checks_first_mismatch rd (rp b c : gmap string pyval)
    ev cluster_id :
  b !! "CrossRealmTrustConfiguration" = Some (VDict c) →
  (∀ key, key ∈ cross_realm_parameters →
          is_Some (rp !! key) → is_Some (c !! key)) →
  cross_realm_checks rd rp ev cluster_id (VDict b) =
    Ok (match first_mismatch rd rp c with
        | Some key =>
            non_compliant cluster_id ev
              (key +:+ " is not equal to the specified Rule parameter "
                   +:+ key +:+ ".")
        | None =>
            build_evaluation cluster_id "COMPLIANT" ev DEFAULT_RESOURCE_TYPE None
        end).
Proof.
  intros Hc Hkeys. unfold cross_realm_checks. simpl. rewrite Hc.
  rewrite ?bool_decide_eq_true_2 by eauto. simpl.
  rewrite !differs_mismatch by (apply Hkeys; in_list).
  unfold first_mismatch, cross_realm_parameters. simpl.
  destruct (mismatch rd rp c "Realm"); [done|].
  destruct (mismatch rd rp c "Domain"); [done|].
  destruct (mismatch rd rp c "AdminServer"); [done|].
  by destruct (mismatch rd rp c "KdcServer").
Qed.

Lemma cross_realm_checks_shape rd rp ev cluster_id block e :
  cross_realm_checks rd rp ev cluster_id block = Ok e →
  rule_evaluation ev cluster_id e.
Proof.
  unfold cross_realm_checks, rule_evaluation. intros H. split_ok H;
    injection H as <-;
    first [by left | right; right; eexists; split; [|reflexivity]; in_list].
Qed.

Lemma evaluate_security_configuration_shape rd rp ev cluster_id details e :
  evaluate_security_configuration rd rp ev cluster_id details = Ok e →
  rule_evaluation ev cluster_id e.
Proof.
  unfold evaluate_security_configuration. intros H. split_ok H.
  - injection H as <-. right; right. eexists. split; [|reflexivity]. in_list.
  - injection H as <-. right; right. eexists. split; [|reflexivity]. in_list.
  - by eapply cross_realm_checks_shape.
Qed.

Lemma evaluate_cluster_shape rd client ev rp cluster e :
  outcome (evaluate_cluster rd client ev rp cluster) = Ok e →
  rule_evaluation ev (Id cluster) e.
Proof.
  unfold outcome, evaluate_cluster. rewrite bind_run. unfold call at 1.
  destruct (describe_cluster client (Id cluster)) as [d|err]; [|done].
  destruct (bool_decide _).
  { intros [= <-]. right. by left. }
  destruct (SecurityConfiguration d) as [name|].
  - rewrite bind_run. unfold call at 1.
    destruct (describe_security_configuration client name) as [doc|err];
      [|done].
    unfold lift. simpl. apply evaluate_security_configuration_shape.
  - intros [= <-]. right; right. eexists. split; [|reflexivity]. in_list.
Qed.

Lemma rule_evaluation_fields ev cluster_id e :
  rule_evaluation ev cluster_id e →
  complete e
  ∧ e !! "ComplianceResourceType" = Some DEFAULT_RESOURCE_TYPE
  ∧ e !! "OrderingTimestamp" = Some (notificationCreationTime ev)
  ∧ e !! "ComplianceResourceId" = Some cluster_id
  ∧ ((e !! "ComplianceType" = Some "COMPLIANT" ∧ e !! "Annotation" = None)
     ∨ (e !! "ComplianceType" = Some "NOT_APPLICABLE" ∧ e !! "Annotation" = None)
     ∨ (e !! "ComplianceType" = Some "NON_COMPLIANT"
        ∧ ∃ a, a ∈ annotations ∧ e !! "Annotation" = Some a)).
Proof.
  intros [->|[->|(a & Ha & ->)]].
  - split; [apply build_evaluation_complete|].
    repeat split; try by vm_compute. left. by vm_compute.
  - split; [apply build_evaluation_complete|].
    repeat split; try by vm_compute. right; left. by vm_compute.
  - split; [apply build_evaluation_complete|].
    assert (Hfields :
      non_compliant cluster_id ev a !! "ComplianceResourceType"
        = Some DEFAULT_RESOURCE_TYPE
      ∧ non_compliant cluster_id ev a !! "OrderingTimestamp"
        = Some (notificationCreationTime ev)
      ∧ non_compliant cluster_id ev a !! "ComplianceResourceId" = Some cluster_id
      ∧ non_compliant cluster_id ev a !! "ComplianceType" = Some "NON_COMPLIANT"
      ∧ non_compliant cluster_id ev a !! "Annotation" = Some a).
    { unfold annotations in Ha.
      repeat (apply elem_of_cons in Ha as [->|Ha]);
        [by vm_compute..|by apply elem_of_nil in Ha]. }
    destruct Hfields as (H1 & H2 & H3 & H4 & H5).
    repeat split; try done. right; right. split; [done|]. by exists a.
Qed.

(** X10: every evaluation that the rule forms for a cluster has the
    four required fields, the resource type AWS::EMR::Cluster, the
    time stamp of the event and the identifier of the cluster; it is
    COMPLIANT or NOT_APPLICABLE without an annotation, or NON_COMPLIANT
    with one of the eight fixed annotations. *)
Theorem evaluate_cluster_wellformed rd client ev (rp : gmap string pyval)
    cluster e :
  outcome (evaluate_cluster rd client ev rp cluster) = Ok e →
  complete e
  ∧ e !! "ComplianceResourceType" = Some "AWS::EMR::Cluster"
  ∧ e !! "OrderingTimestamp" = Some (notificationCreationTime ev)
  ∧ e !! "ComplianceResourceId" = Some (Id cluster)
  ∧ ((e !! "ComplianceType" = Some "COMPLIANT" ∧ e !! "Annotation" = None)
     ∨ (e !! "ComplianceType" = Some "NOT_APPLICABLE" ∧ e !! "Annotation" = None)
     ∨ (e !! "ComplianceType" = Some "NON_COMPLIANT"
        ∧ ∃ a, a ∈ annotations ∧ e !! "Annotation" = Some a)).
Proof.
  intros H. apply evaluate_cluster_shape in H.
  by apply rule_evaluation_fields in H.
Qed.

(** ** The calls of the loop over the clusters *)

Lemma calls_bind {A B : Type} (m : M A) (f : A → M B) :
  uniform m → (∀ a, uniform (f a)) →
  calls (m ≫= f) = calls m ++ match outcome m with
                              | Ok a => calls (f a)
                              | Raise _ => []
                              end.
Proof.
  intros Hm Hf. unfold calls at 1. rewrite bind_run, (Hm []). simpl.
  destruct (outcome m) as [a|e]; simpl.
  - by rewrite (Hf a (calls m)).
  - by rewrite app_nil_r.
Qed.

Lemma calls_list_cluster_pages marker p :
  calls (list_cluster_pages marker p) = page_calls marker p.
Proof.
  revert marker. induction p as [cs|cs m next IH|e]; intros marker; simpl.
  - reflexivity.
  - rewrite calls_bind;
      [|apply uniform_call
       |intros; apply uniform_bind;
          [apply uniform_list_cluster_pages|intros; apply uniform_ret]].
    change (outcome (call (ListClusters marker) (Ok ()))) with (Ok ()).
    change (calls (call (ListClusters marker) (Ok ()))) with [ListClusters marker].
    simpl. f_equal.
    rewrite calls_bind;
      [|apply uniform_list_cluster_pages|intros; apply uniform_ret].
    rewrite IH. destruct (outcome _); by rewrite app_nil_r.
  - reflexivity.
Qed.

Lemma page_clusters_all_pages p pages :
  all_pages p = Some pages →
  page_clusters p = Ok (List.concat pages)
  ∧ List.length (page_calls None p) = List.length pages.
Proof.
  generalize (@None string) as marker. revert pages.
  induction p as [cs|cs m next IH|e]; intros pages marker; simpl.
  - intros [= <-]. simpl. by rewrite app_nil_r.
  - destruct (all_pages next) as [rest|]; [|done]. intros [= <-].
    destruct (IH rest (Some m) eq_refl) as [-> Hlen]. simpl. by rewrite Hlen.
  - done.
Qed.

(** X11: [get_all_cluster] returns the clusters of the pages in the
    order of the pages and makes one call per page, the first without a
    marker and each next one with the marker of the page before; when no
    call fails the result is the concatenation of all the pages. *)
Theorem get_all_cluster_pages client log :
  get_all_cluster client log =
    (page_clusters (list_clusters client),
     log ++ page_calls None (list_clusters client))
  ∧ ∀ pages, all_pages (list_clusters client) = Some pages →
             fst (get_all_cluster client log) = Ok (List.concat pages)
             ∧ List.length (page_calls None (list_clusters client))
               = List.length pages.
Proof.
  unfold get_all_cluster.
  assert (Hrun : list_cluster_pages None (list_clusters client) log =
                 (page_clusters (list_clusters client),
                  log ++ page_calls None (list_clusters client))).
  { rewrite (uniform_list_cluster_pages None (list_clusters client) log).
    by rewrite outcome_list_cluster_pages, calls_list_cluster_pages. }
  split; [exact Hrun|]. intros pages Hpages. rewrite Hrun. simpl.
  by apply page_clusters_all_pages.
Qed.

Lemma calls_evaluate_cluster_read rd client ev rp cluster :
  Forall emr_read_call (calls (evaluate_cluster rd client ev rp cluster)).
Proof.
  unfold calls, evaluate_cluster. rewrite bind_run. unfold call at 1.
  destruct (describe_cluster client (Id cluster)) as [d|err];
    [|by repeat constructor].
  destruct (bool_decide _); [by repeat constructor|].
  destruct (SecurityConfiguration d) as [name|]; [|by repeat constructor].
  rewrite bind_run. unfold call at 1.
  destruct (describe_security_configuration client name) as [doc|err];
    by repeat constructor.
Qed.

Lemma calls_for_each_Forall {A B : Type} (P : api_call → Prop)
    (body : A → M B) (xs : list A) :
  (∀ x, uniform (body x)) → (∀ x, Forall P (calls (body x))) →
  Forall P (calls (for_each body xs)).
Proof.
  intros Hu HP. induction xs as [|x xs IH]; simpl; [constructor|].
  rewrite calls_bind;
    [|done|intros; apply uniform_bind;
             [by apply uniform_for_each|intros; apply uniform_ret]].
  apply Forall_app. split; [done|].
  destruct (outcome (body x)); [|constructor].
  rewrite calls_bind; [|by apply uniform_for_each|intros; apply uniform_ret].
  apply Forall_app. split; [done|]. destruct (outcome _); constructor.
Qed.

Lemma page_calls_read marker p : Forall emr_read_call (page_calls marker p).
Proof.
  revert marker.
  induction p as [cs|cs m next IH|e]; intros marker; simpl;
    repeat constructor; auto.
Qed.

(** X12: the evaluation of the clusters only reads the EMR service: the
    calls it adds to the log are ListClusters, DescribeCluster and
    DescribeSecurityConfiguration calls, never a call to the Config
    service. *)
Theorem evaluate_compliance_reads_only rd client ev (rp : gmap string pyval) log :
  ∃ l, snd (evaluate_compliance rd client ev rp log) = log ++ l
       ∧ Forall emr_read_call l
       ∧ submitted l = [].
Proof.
  exists (calls (evaluate_compliance rd client ev rp)).
  split; [by rewrite (uniform_evaluate_compliance rd client ev rp log)|].
  assert (Hread : Forall emr_read_call (calls (evaluate_compliance rd client ev rp))).
  { unfold evaluate_compliance, get_all_cluster.
    rewrite calls_bind; [|apply uniform_list_cluster_pages|].
    - apply Forall_app. split.
      + rewrite calls_list_cluster_pages. apply page_calls_read.
      + destruct (outcome _) as [[|c cs]|e]; [constructor| |constructor].
        rewrite calls_bind;
          [|apply uniform_for_each; intros; apply uniform_evaluate_cluster
           |intros; apply uniform_ret].
        apply Forall_app. split.
        * apply calls_for_each_Forall;
            [intros; apply uniform_evaluate_cluster
            |intros; apply calls_evaluate_cluster_read].
        * destruct (outcome _); constructor.
    - intros [|c cs]; [apply uniform_ret|].
      apply uniform_bind; [|intros; apply uniform_ret].
      apply uniform_for_each. intros. apply uniform_evaluate_cluster. }
  split; [done|].
  induction Hread as [|c l Hc _ IH]; [done|].
  destruct c; simpl in *; done.
Qed.

Lemma for_each_raise {A B : Type} (body : A → M B) (pre post : list A) c err :
  (∀ x, uniform (body x)) →
  Forall (λ x, ∃ y, outcome (body x) = Ok y) pre →
  outcome (body c) = Raise err →
  outcome (for_each body (pre ++ c :: post)) = Raise err
  ∧ calls (for_each body (pre ++ c :: post))
    = List.concat ((λ x, calls (body x)) <$> pre) ++ calls (body c).
Proof.
  intros Hu Hpre Hc. induction Hpre as [|x pre [y Hy] _ [IHo IHc]]; simpl.
  - rewrite outcome_bind_uniform, calls_bind;
      try done;
      try (intros; apply uniform_bind;
             [by apply uniform_for_each|intros; apply uniform_ret]).
    rewrite Hc. simpl. by rewrite app_nil_r.
  - rewrite outcome_bind_uniform, calls_bind;
      try done;
      try (intros; apply uniform_bind;
             [by apply uniform_for_each|intros; apply uniform_ret]).
    rewrite Hy. simpl.
    rewrite outcome_bind_uniform, calls_bind;
      try (by apply uniform_for_each); try (intros; apply uniform_ret).
    rewrite IHo, IHc. simpl. by rewrite app_nil_r, app_assoc.
Qed.

(** X13: the loop stops at the first cluster whose evaluation raises:
    the exception is the outcome of the whole evaluation, the clusters
    before it have been evaluated, and no call is made for a cluster
    after it. *)
Theorem evaluate_compliance_fails_fast rd client ev (rp : gmap string pyval)
    pre c post err :
  page_clusters (list_clusters client) = Ok (pre ++ c :: post) →
  Forall (λ x, ∃ e, outcome (evaluate_cluster rd client ev rp x) = Ok e) pre →
  outcome (evaluate_cluster rd client ev rp c) = Raise err →
  outcome (evaluate_compliance rd client ev rp) = Raise err
  ∧ calls (evaluate_compliance rd client ev rp)
    = page_calls None (list_clusters client)
      ++ List.concat ((λ x, calls (evaluate_cluster rd client ev rp x)) <$> pre)
      ++ calls (evaluate_cluster rd client ev rp c).
Proof.
  intros Hpages Hpre Hc.
  destruct (for_each_raise (evaluate_cluster rd client ev rp) pre post c err)
    as [Ho Hcalls]; [intros; apply uniform_evaluate_cluster|done|done|].
  assert (Hu : ∀ cs : list cluster_summary,
            uniform (match cs with
                     | [] => mret None
                     | _ :: _ =>
                         for_each (evaluate_cluster rd client ev rp) cs
                         ≫= λ evaluations, mret (Some evaluations)
                     end)).
  { intros [|x xs]; [apply uniform_ret|].
    apply uniform_bind; [|intros; apply uniform_ret].
    apply uniform_for_each. intros. apply uniform_evaluate_cluster. }
  split.
  - rewrite outcome_evaluate_compliance, Hpages. cbn -[mapM].
    rewrite <- outcome_for_each by (intros; apply uniform_evaluate_cluster).
    rewrite Ho. by destruct pre.
  - unfold evaluate_compliance, get_all_cluster.
    rewrite calls_bind; [|apply uniform_list_cluster_pages|exact Hu].
    rewrite calls_list_cluster_pages, outcome_list_cluster_pages, Hpages.
    f_equal.
    assert (Hne : pre ++ c :: post ≠ []) by (by destruct pre).
    destruct (pre ++ c :: post) as [|x xs] eqn:Hcs; [done|].
    rewrite calls_bind;
      [|apply uniform_for_each; intros; apply uniform_evaluate_cluster
       |intros; apply uniform_ret].
    rewrite Ho, Hcalls. by rewrite app_nil_r.
Qed.

(** ** The clean-up of old evaluations, continued *)

Lemma newer_founded_raise old_resource_id (latest : list evaluation) :
  Exists (λ e : evaluation, e !! "ComplianceResourceId" = None) latest →
  newer_founded old_resource_id latest
  = Raise (KeyError (VStr "ComplianceResourceId")).
Proof.
  induction 1 as [e latest He|e latest _ IH]; simpl.
  - by rewrite He.
  - destruct (e !! "ComplianceResourceId"); [|done]. by rewrite IH.
Qed.

Lemma has_id_or_not (latest : list evaluation) :
  Forall (λ e : evaluation, is_Some (e !! "ComplianceResourceId")) latest
  ∨ Exists (λ e : evaluation, e !! "ComplianceResourceId" = None) latest.
Proof.
  induction latest as [|e latest [IH|IH]].
  - left. constructor.
  - destruct (e !! "ComplianceResourceId") as [r|] eqn:He.
    + left. constructor; [by eexists|done].
    + right. by left.
  - right. by right.
Qed.

(** X14: the clean-up raises KeyError on ComplianceResourceId exactly
    when there is an earlier result and a latest evaluation without that
    field; without earlier results it returns the latest evaluations as
    they are, whatever fields they hold. *)
Theorem clean_up_old_evaluations_key_error config ev
    (latest : list evaluation) olds log :
  page_results (get_compliance_details_by_config_rule config) = Ok olds →
  (fst (clean_up_old_evaluations config latest ev log)
   = Raise (KeyError (VStr "ComplianceResourceId"))
   ↔ olds ≠ []
     ∧ ∃ e : evaluation, e ∈ latest ∧ e !! "ComplianceResourceId" = None)
  ∧ (olds = [] →
     fst (clean_up_old_evaluations config latest ev log) = Ok latest).
Proof.
  intros Hpages.
  rewrite (fst_uniform _ log (uniform_clean_up_old_evaluations _ _ _)).
  rewrite outcome_clean_up_old_evaluations, Hpages. simpl.
  split; [|by intros ->].
  destruct (has_id_or_not latest) as [Hall|Hex].
  - rewrite cleaned_evaluations_ok by done. simpl. split; [done|].
    intros (_ & e & He & Hnone).
    destruct (proj1 (Forall_forall _ _) Hall e He) as [r Hr]. congruence.
  - destruct olds as [|o olds].
    + simpl. split; [done|]. by intros [? _].
    + simpl. rewrite newer_founded_raise by done. simpl.
      split; [|done]. intros _. split; [done|].
      apply Exists_exists in Hex as (e & He & Hnone). by exists e.
Qed.

(** X15: when every latest evaluation carries a resource identifier,
    the clean-up returns the latest evaluations unchanged exactly when
    every earlier result is about a resource that a latest evaluation
    is about. *)
Theorem clean_up_old_evaluations_unchanged config ev
    (latest : list evaluation) olds log :
  page_results (get_compliance_details_by_config_rule config) = Ok olds →
  Forall (λ e : evaluation, is_Some (e !! "ComplianceResourceId")) latest →
  fst (clean_up_old_evaluations config latest ev log) = Ok latest
  ↔ ∀ o, o ∈ olds → Some (ResourceId o) ∈ resource_ids latest.
Proof.
  intros Hpages Hlatest.
  rewrite (clean_up_old_evaluations_ok _ _ _ _ _ Hpages Hlatest). simpl.
  unfold stale_evaluations. split.
  - intros [= Heq] o Ho.
    apply (app_inv_tail latest _ []) in Heq.
    apply fmap_nil_inv in Heq.
    destruct (decide (Some (ResourceId o) ∈ resource_ids latest)) as [|Hno];
      [done|].
    assert (o ∈ filter (λ o, Some (ResourceId o) ∉ resource_ids latest) olds)
      as Hin by (by apply list_elem_of_filter).
    rewrite Heq in Hin. by apply elem_of_nil in Hin.
  - intros Hcovered.
    assert (filter (λ o, Some (ResourceId o) ∉ resource_ids latest) olds = [])
      as ->; [|done].
    clear Hpages. induction olds as [|o olds IH]; [done|].
    rewrite filter_cons_False.
    + apply IH. intros. apply Hcovered. by right.
    + intros Hno. apply Hno, Hcovered. by left.
Qed.

(** ** The submission loop *)

Lemma started_hundreds (n : nat) :
  (0 < n)%nat → ((n + 99) `div` 100 = S ((n - 100 + 99) `div` 100))%nat.
Proof.
  intros Hn. assert (n ≤ 100 ∨ 100 < n)%nat as [Hle|Hgt] by lia.
  - replace (n - 100)%nat with 0%nat by lia.
    rewrite (Nat.div_small (0 + 99) 100) by lia.
    symmetry. apply (Nat.div_unique _ 100 1 (n - 1)); lia.
  - replace (n + 99)%nat with ((n - 100 + 99) + 1 * 100)%nat by lia.
    rewrite Nat.div_add by lia. lia.
Qed.

(** X16: when the Config service accepts every batch, the loop submits
    the evaluations in order in batches of at least 1 and at most 100,
    all with the result token and the test mode of the call; it makes
    one call per started hundred and leaves the list empty. *)
Theorem submit_batches config result_token test_mode
    (evaluations : list evaluation) log :
  (∀ batch, put_evaluations config batch = Ok ()) →
  ∃ l, submit config result_token test_mode evaluations log = (Ok [], log ++ l)
       ∧ submitted l = evaluations
       ∧ List.length l = ((List.length evaluations + 99) `div` 100)%nat
       ∧ Forall (λ c, ∃ batch,
                   c = PutEvaluations batch result_token test_mode
                   ∧ (1 ≤ List.length batch ≤ 100)%nat) l.
Proof.
  intros Hput. remember (List.length evaluations) as n eqn:Hn.
  revert evaluations log Hn.
  induction n as [n IH] using lt_wf_ind. intros evaluations log Hn.
  destruct evaluations as [|e rest].
  - simp submit. exists []. subst n. rewrite app_nil_r. repeat split.
    constructor.
  - simp submit. rewrite bind_run. unfold call at 1. rewrite Hput.
    remember (e :: rest) as evs eqn:Hevs.
    assert (Hpos : (0 < n)%nat) by (subst; simpl; lia).
    destruct (IH (List.length (drop 100 evs))) with (evaluations := drop 100 evs)
      (log := log ++ [PutEvaluations (take 100 evs) result_token test_mode])
      as (l & Hrun & Hsub & Hlen & Hall); [|reflexivity|].
    + rewrite length_drop. lia.
    + exists (PutEvaluations (take 100 evs) result_token test_mode :: l).
      rewrite Hrun. split; [by rewrite <- app_assoc|]. split; [|split].
      * simpl submitted. rewrite Hsub. apply take_drop.
      * simpl List.length at 1. rewrite Hlen, length_drop, <- Hn.
        by rewrite (started_hundreds n).
      * constructor; [|done]. eexists. split; [reflexivity|].
        rewrite length_take. lia.
Qed.

(** X17: the loop stops at the first batch that the Config service
    rejects: the batches before it have been submitted, the rejected
    batch is the last call, its exception is the outcome, and nothing
    after it is submitted. *)
Theorem submit_rejected config result_token test_mode
    (accepted : list (list evaluation)) (rest : list evaluation) err log :
  Forall (λ batch, List.length batch = 100
                   ∧ put_evaluations config batch = Ok ()) accepted →
  rest ≠ [] →
  put_evaluations config (take 100 rest) = Raise err →
  submit config result_token test_mode (List.concat accepted ++ rest) log =
    (Raise err,
     log ++ ((λ batch, PutEvaluations batch result_token test_mode) <$> accepted)
         ++ [PutEvaluations (take 100 rest) result_token test_mode]).
Proof.
  intros Haccepted Hrest Hbad. revert log.
  induction Haccepted as [|batch accepted [Hlen Hok] _ IH]; intros log.
  - simpl. destruct rest as [|e rest]; [done|].
    simp submit. rewrite bind_run. unfold call at 1. by rewrite Hbad.
  - simpl. rewrite <- app_assoc.
    destruct batch as [|e batch]; [done|].
    change ((e :: batch) ++ List.concat accepted ++ rest)
      with (e :: (batch ++ List.concat accepted ++ rest)).
    simp submit. rewrite bind_run. unfold call at 1.
    change (e :: (batch ++ List.concat accepted ++ rest))
      with ((e :: batch) ++ (List.concat accepted ++ rest)).
    rewrite take_app_length', drop_app_length', Hok by done.
    rewrite IH. f_equal. by rewrite <- !app_assoc.
Qed.

(** ** The end of the handler *)

Lemma report_clean_up config ev configuration_item result
    (latest : list evaluation) olds log :
  evaluations_to_report config ev configuration_item result
  = clean_up_old_evaluations config latest ev →
  page_results (get_compliance_details_by_config_rule config) = Ok olds →
  Forall (λ e : evaluation, is_Some (e !! "ComplianceResourceId")) latest →
  (∀ batch, put_evaluations config batch = Ok ()) →
  ∃ log', report config ev configuration_item result log = (Ok [], log')
          ∧ submitted log'
            = submitted log ++ stale_evaluations ev latest olds ++ latest.
Proof.
  intros Hto Hpages Hids Hput.
  unfold report. rewrite bind_run, Hto.
  rewrite (clean_up_old_evaluations_ok _ _ _ _ _ Hpages Hids).
  destruct (submit_all config (resultToken ev)
              (bool_decide (resultToken ev = "TESTMODE"))
              (stale_evaluations ev latest olds ++ latest)
              (log ++ calls (clean_up_old_evaluations config latest ev)) Hput)
    as (log' & -> & Hsub).
  exists log'. split; [done|]. rewrite Hsub. f_equal.
  rewrite <- (submitted_clean_up_old_evaluations config latest ev log).
  by rewrite (uniform_clean_up_old_evaluations config latest ev log).
Qed.

Lemma stale_of_account ev (resource_type : string) olds :
  stale_evaluations ev
    [build_evaluation (accountId ev) "NOT_APPLICABLE" ev resource_type None] olds
  = not_applicable ev <$> filter (λ o, ResourceId o ≠ accountId ev) olds.
Proof.
  unfold stale_evaluations. f_equal. apply list_filter_iff. intros o.
  unfold resource_ids. rewrite fmap_cons, build_evaluation_id. simpl.
  rewrite list_elem_of_singleton. split; intros H Heq; apply H; congruence.
Qed.

(** X18: when the result of the evaluation is falsy (no cluster: the
    result is [None]) and the Config service answers, the handler
    submits, in this order, a NOT_APPLICABLE evaluation for every
    earlier result whose resource is not the account, then one
    NOT_APPLICABLE evaluation of type AWS::::Account for the account;
    the list it returns is empty. *)
Theorem report_falsy_result config ev configuration_item result olds log :
  falsy result = true →
  page_results (get_compliance_details_by_config_rule config) = Ok olds →
  (∀ batch, put_evaluations config batch = Ok ()) →
  ∃ account,
    fst (report config ev configuration_item result log) = Ok []
    ∧ submitted (snd (report config ev configuration_item result log))
      = submitted log
        ++ (not_applicable ev <$> filter (λ o, ResourceId o ≠ accountId ev) olds)
        ++ [account]
    ∧ account !! "ComplianceResourceType" = Some "AWS::::Account"
    ∧ account !! "ComplianceResourceId" = Some (accountId ev)
    ∧ account !! "ComplianceType" = Some "NOT_APPLICABLE"
    ∧ account !! "OrderingTimestamp" = Some (notificationCreationTime ev)
    ∧ account !! "Annotation" = None.
Proof.
  intros Hfalsy Hpages Hput.
  set (account := build_evaluation (accountId ev) "NOT_APPLICABLE" ev
                    "AWS::::Account" None).
  destruct (report_clean_up config ev configuration_item result [account]
              olds log) as (log' & Hrun & Hsub); [|done| |done|].
  - unfold evaluations_to_report. by rewrite Hfalsy.
  - constructor; [|constructor]. apply complete_has_id, build_evaluation_complete.
  - exists account. rewrite Hrun. simpl. rewrite Hsub.
    unfold account at 1. rewrite stale_of_account.
    repeat split; by vm_compute.
Qed.

Lemma mapM_evaluations_complete rd client ev (rp : gmap string pyval) cs evs :
  mapM (λ c, outcome (evaluate_cluster rd client ev rp c)) cs = Ok evs →
  Forall complete evs.
Proof.
  intros HF%res_mapM_ok.
  induction HF as [|c e cs' es He _ IH]; constructor; [|done].
  apply evaluate_cluster_shape in He.
  by apply rule_evaluation_fields in He as [He _].
Qed.

(** X19: the list that [evaluate_compliance] returns is never empty and
    holds only evaluations with the four required fields, so the filter
    of the handler keeps all of it. *)
Theorem evaluate_compliance_nothing_dropped rd client ev
    (rp : gmap string pyval) evaluations :
  outcome (evaluate_compliance rd client ev rp) = Ok (Some evaluations) →
  evaluations ≠ []
  ∧ falsy (ResultList evaluations) = false
  ∧ complete_evaluations evaluations = evaluations.
Proof.
  rewrite outcome_evaluate_compliance.
  destruct (page_clusters (list_clusters client)) as [[|c cs]|e]; simpl;
    [done| |done].
  destruct (outcome (evaluate_cluster rd client ev rp c)) as [e|err] eqn:He;
    simpl; [|done].
  destruct (mapM _ cs) as [es|err] eqn:Hes; simpl; [|done].
  intros [= <-]. split; [done|]. split; [done|].
  rewrite complete_evaluations_filter.
  assert (Hall : Forall complete (e :: es)).
  { constructor.
    - apply evaluate_cluster_shape in He.
      by apply rule_evaluation_fields in He as [He _].
    - by eapply mapM_evaluations_complete. }
  induction Hall as [|x xs Hx _ IH]; [done|].
  rewrite filter_cons_True by (by apply missing_fields_false). by rewrite IH.
Qed.

(** ** The handler *)

Lemma is_valid_hostname_raises hostname type e :
  is_valid_hostname hostname type = Raise e →
  e = IndexError ∨ e = TypeError ∨ e = KeyError (VInt (-1)).
Proof.
  destruct hostname as [| | |s|m]; simpl; try (intros [= <-]; tauto).
  - unfold is_valid_hostname_str.
    destruct (255 <? PyStr.len s)%nat; [done|].
    unfold PyStr.last_char. destruct (last (PyStr.chars s)); simpl.
    + repeat (match goal with |- context [if ?b then _ else _] => destruct b end;
              try done).
    + intros [= <-]. tauto.
  - destruct (255 <? size m)%nat; [done|]. intros [= <-]. tauto.
Qed.

Lemma check_parameter_value_error (rp : gmap string pyval) key f name :
  (∀ x, f x ≠ Raise (ValueError name)) →
  check_parameter rp key f = Raise (ValueError name) →
  name = key ∧ is_Some (rp !! key).
Proof.
  intros Hf. unfold check_parameter.
  destruct (rp !! key) as [x|]; [|done].
  destruct (f x) as [[]|e] eqn:Hfx; simpl.
  - intros [= <-]. eauto.
  - done.
  - intros [= ->]. by destruct (Hf x).
Qed.

Lemma hostname_check_no_value_error x type name :
  negb <$> is_valid_hostname x type ≠ Raise (ValueError name).
Proof.
  destruct (is_valid_hostname x type) as [b|e] eqn:H; simpl; [done|].
  intros [= ->]. apply is_valid_hostname_raises in H as [H|[H|H]]; done.
Qed.

(** A ValueError of the validator names a recognized parameter that the
    mapping holds. *)
Lemma evaluate_parameters_value_error rd (rp : gmap string pyval) name :
  evaluate_parameters rd rp = Raise (ValueError name) →
  name ∈ recognized_parameters ∧ is_Some (rp !! name).
Proof.
  unfold evaluate_parameters. case_bool_decide; [done|].
  repeat match goal with
  | |- (check_parameter ?m ?key ?f ≫= _) = _ → _ =>
      let H := fresh "H" in
      destruct (check_parameter m key f) as [[]|e] eqn:H; simpl;
        [|intros [= ->];
          apply check_parameter_value_error in H as [-> ?];
            [split; [in_list|done]|]]
  end; try done.
  all: intros x; try destruct (negb (PyStr.isupper _)); try done;
    apply hostname_check_no_value_error.
Qed.

(** X20: when the validator raises ValueError, the handler makes no
    call at all and returns an error response whose customer code is
    InvalidParameterValueException and whose customer message is the
    name of the parameter, one of the five recognized names and a key of
    the parameters given. *)
Theorem lambda_handler_invalid_parameter rd ces cem emr config ev
    ruleParameters eventLeftScope name log :
  evaluate_parameters rd (default ∅ ruleParameters) = Raise (ValueError name) →
  ∃ r, lambda_handler rd ces cem emr config ev ruleParameters eventLeftScope log
       = (Ok (ErrorResponse r), log)
       ∧ customerErrorCode r = Some "InvalidParameterValueException"
       ∧ customerErrorMessage r = Some name
       ∧ name ∈ recognized_parameters
       ∧ ∃ rp : gmap string pyval,
           ruleParameters = Some rp ∧ is_Some (rp !! name).
Proof.
  intros Hparams. unfold lambda_handler. rewrite Hparams.
  eexists. split; [reflexivity|]. split; [done|]. split; [done|].
  apply evaluate_parameters_value_error in Hparams as [Hname Hkey].
  split; [done|]. destruct ruleParameters as [rp|]; simpl in Hkey.
  - by exists rp.
  - rewrite lookup_empty in Hkey. by destruct Hkey.
Qed.

(** The handler once the parameters are valid. *)
Lemma lambda_handler_valid rd ces cem emr config ev ruleParameters
    eventLeftScope (v : gmap string pyval) log :
  evaluate_parameters rd (default ∅ ruleParameters) = Ok v →
  lambda_handler rd ces cem emr config ev ruleParameters eventLeftScope log =
    match outcome (evaluate_compliance rd emr ev v) with
    | Ok r =>
        (report config ev None (result_of r) ≫= λ l, mret (Returned l))
          (log ++ calls (evaluate_compliance rd emr ev v))
    | Raise e =>
        match api_error_handler ces cem e with
        | Some h =>
            (h ≫= λ step,
               match step with
               | inl response => mret (ErrorResponse response)
               | inr result =>
                   report config ev None result ≫= λ l, mret (Returned l)
               end) (log ++ calls (evaluate_compliance rd emr ev v))
        | None => (Raise e, log ++ calls (evaluate_compliance rd emr ev v))
        end
    end.
Proof.
  intros Hparams. unfold lambda_handler. rewrite Hparams.
  rewrite bind_run. unfold try_except. simpl is_applicable.
  rewrite (bind_run (lift (Ok true))). unfold lift at 1.
  rewrite bind_run, (uniform_evaluate_compliance rd emr ev v log).
  destruct (outcome (evaluate_compliance rd emr ev v)) as [r|e]; [done|].
  destruct (api_error_handler ces cem e) as [h|]; [|done].
  rewrite bind_run. by destruct (h _) as [[[]|]].
Qed.

Lemma submitted_calls_evaluate_compliance rd emr ev (rp : gmap string pyval) log :
  submitted (log ++ calls (evaluate_compliance rd emr ev rp)) = submitted log.
Proof.
  rewrite submitted_app.
  assert (Hread : Forall emr_read_call (calls (evaluate_compliance rd emr ev rp))).
  { unfold evaluate_compliance, get_all_cluster.
    rewrite calls_bind; [|apply uniform_list_cluster_pages|].
    - apply Forall_app. split.
      + rewrite calls_list_cluster_pages. apply page_calls_read.
      + destruct (outcome _) as [[|c cs]|e]; [constructor| |constructor].
        rewrite calls_bind;
          [|apply uniform_for_each; intros; apply uniform_evaluate_cluster
           |intros; apply uniform_ret].
        apply Forall_app. split.
        * apply calls_for_each_Forall;
            [intros; apply uniform_evaluate_cluster
            |intros; apply calls_evaluate_cluster_read].
        * destruct (outcome _); constructor.
    - intros [|c cs]; [apply uniform_ret|].
      apply uniform_bind; [|intros; apply uniform_ret].
      apply uniform_for_each. intros. apply uniform_evaluate_cluster. }
  assert (submitted (calls (evaluate_compliance rd emr ev rp)) = []) as ->.
  { induction Hread as [|c l Hc _ IH]; [done|]. destruct c; simpl in *; done. }
  by rewrite app_nil_r.
Qed.

(** X21: when the parameters are valid and a call to the EMR service
    fails with a ClientError, the handler returns an error response and
    submits nothing.  For a code that starts with 5 or mentions
    InternalError or ServiceError the customer code and message are both
    InternalError; otherwise they are the code and the message of the
    error. *)
Theorem lambda_handler_client_error rd ces cem emr config ev ruleParameters
    eventLeftScope (v : gmap string pyval) code log :
  evaluate_parameters rd (default ∅ ruleParameters) = Ok v →
  outcome (evaluate_compliance rd emr ev v) = Raise (ClientError code) →
  ∃ r log',
    lambda_handler rd ces cem emr config ev ruleParameters eventLeftScope log
    = (Ok (ErrorResponse r), log')
    ∧ submitted log' = submitted log
    ∧ internalErrorDetails r = Some (ces code)
    ∧ (is_internal_error (ClientError code) = true →
       customerErrorCode r = Some "InternalError"
       ∧ customerErrorMessage r = Some "InternalError")
    ∧ (is_internal_error (ClientError code) = false →
       customerErrorCode r = Some code
       ∧ customerErrorMessage r = Some (cem code)).
Proof.
  intros Hparams Hrun.
  rewrite (lambda_handler_valid _ _ _ _ _ _ _ _ _ _ Hparams), Hrun.
  cbn [api_error_handler]. rewrite bind_run.
  eexists _, _. split; [reflexivity|].
  split; [apply submitted_calls_evaluate_compliance|].
  destruct (is_internal_error (ClientError code)); repeat split; done.
Qed.

(** X22: when the parameters are valid, the evaluation returns and the
    Config service answers, the handler returns the empty list and has
    submitted, in this order: a NOT_APPLICABLE evaluation for every
    earlier result that no cluster evaluation is about, then the
    evaluations of the clusters in their order; with no cluster, the
    NOT_APPLICABLE evaluations for the earlier results not about the
    account, then one for the account. *)
Theorem lambda_handler_submits rd ces cem emr config ev ruleParameters
    eventLeftScope (v : gmap string pyval) r olds log :
  evaluate_parameters rd (default ∅ ruleParameters) = Ok v →
  outcome (evaluate_compliance rd emr ev v) = Ok r →
  page_results (get_compliance_details_by_config_rule config) = Ok olds →
  (∀ batch, put_evaluations config batch = Ok ()) →
  ∃ log',
    lambda_handler rd ces cem emr config ev ruleParameters eventLeftScope log
    = (Ok (Returned []), log')
    ∧ submitted log'
      = submitted log
        ++ match r with
           | Some evaluations =>
               stale_evaluations ev evaluations olds ++ evaluations
           | None =>
               (not_applicable ev <$>
                  filter (λ o, ResourceId o ≠ accountId ev) olds)
               ++ [build_evaluation (accountId ev) "NOT_APPLICABLE" ev
                     "AWS::::Account" None]
           end.
Proof.
  intros Hparams Hrun Hpages Hput.
  rewrite (lambda_handler_valid _ _ _ _ _ _ _ _ _ _ Hparams), Hrun.
  rewrite bind_run.
  set (log1 := log ++ calls (evaluate_compliance rd emr ev v)).
  assert (Hlog1 : submitted log1 = submitted log)
    by apply submitted_calls_evaluate_compliance.
  destruct r as [evaluations|].
  - assert (Hall : Forall complete evaluations).
    { rewrite outcome_evaluate_compliance in Hrun.
      destruct (page_clusters (list_clusters emr)) as [[|c cs]|e];
        simpl in Hrun; [done| |done].
      destruct (outcome (evaluate_cluster rd emr ev v c)) as [e|err] eqn:He;
        simpl in Hrun; [|done].
      destruct (mapM _ cs) as [es|err] eqn:Hes; simpl in Hrun; [|done].
      injection Hrun as <-. constructor.
      - apply evaluate_cluster_shape in He.
        by apply rule_evaluation_fields in He as [He _].
      - by eapply mapM_evaluations_complete. }
    assert (Hkeep : complete_evaluations evaluations = evaluations).
    { rewrite complete_evaluations_filter. clear -Hall.
      induction Hall as [|x xs Hx _ IH]; [done|].
      rewrite filter_cons_True by (by apply missing_fields_false).
      by rewrite IH. }
    assert (Hne : evaluations ≠ []).
    { rewrite outcome_evaluate_compliance in Hrun.
      destruct (page_clusters (list_clusters emr)) as [[|c cs]|e];
        simpl in Hrun; [done| |done].
      destruct (outcome (evaluate_cluster rd emr ev v c)); simpl in Hrun; [|done].
      destruct (mapM _ cs); simpl in Hrun; [|done]. by injection Hrun as <-. }
    destruct (report_clean_up config ev None (ResultList evaluations)
                evaluations olds log1) as (log' & Hreport & Hsub);
      [|done| |done|].
    + unfold evaluations_to_report. simpl.
      rewrite bool_decide_eq_false_2 by done. by rewrite Hkeep.
    + eapply Forall_impl; [exact Hall|]. apply complete_has_id.
    + exists log'. simpl result_of. rewrite Hreport. split; [done|].
      by rewrite Hsub, Hlog1.
  - destruct (report_clean_up config ev None ResultNone
                [build_evaluation (accountId ev) "NOT_APPLICABLE" ev
                   "AWS::::Account" None] olds log1)
      as (log' & Hreport & Hsub); [done|done| |done|].
    + constructor; [|constructor].
      apply complete_has_id, build_evaluation_complete.
    + exists log'. simpl result_of. rewrite Hreport. split; [done|].
      by rewrite Hsub, Hlog1, stale_of_account.
Qed.

(** X23: an exception that is neither a ValueError nor a ClientError
    leaves the handler: raised by the validator, before any call; raised
    by the evaluation of the clusters, after the calls made so far and
    with nothing submitted. *)
Theorem lambda_handler_uncaught rd ces cem emr config ev ruleParameters
    eventLeftScope e log :
  (∀ name, e ≠ ValueError name) → (∀ code, e ≠ ClientError code) →
  (evaluate_parameters rd (default ∅ ruleParameters) = Raise e →
   lambda_handler rd ces cem emr config ev ruleParameters eventLeftScope log
   = (Raise e, log))
  ∧ (∀ v : gmap string pyval,
       evaluate_parameters rd (default ∅ ruleParameters) = Ok v →
       outcome (evaluate_compliance rd emr ev v) = Raise e →
       ∃ log',
         lambda_handler rd ces cem emr config ev ruleParameters eventLeftScope log
         = (Raise e, log')
         ∧ submitted log' = submitted log).
Proof.
  intros Hvalue Hclient. split.
  - intros Hparams. unfold lambda_handler. rewrite Hparams.
    destruct e; try done. by destruct (Hvalue msg).
  - intros v Hparams Hrun.
    rewrite (lambda_handler_valid _ _ _ _ _ _ _ _ _ _ Hparams), Hrun.
    assert (api_error_handler ces cem e = None) as ->.
    { destruct e; try done; [by destruct (Hvalue msg)|by destruct (Hclient code)]. }
    eexists. split; [reflexivity|]. apply submitted_calls_evaluate_compliance.
Qed.

(** ** The other results of the evaluation *)

Lemma Forall_calls_bind {A B : Type} (P : api_call → Prop) (m : M A) (f : A → M B) :
  uniform m → (∀ a, uniform (f a)) →
  Forall P (calls m) → (∀ a, Forall P (calls (f a))) →
  Forall P (calls (m ≫= f)).
Proof.
  intros Hm Hf HPm HPf. rewrite calls_bind by done.
  apply Forall_app. split; [done|]. destruct (outcome m); [done|constructor].
Qed.

Lemma calls_list_result_pages_ok ev name token p :
  Forall (put_call_ok ev) (calls (list_result_pages name token p)).
Proof.
  revert token. induction p as [rs|rs t next IH|e]; intros token; simpl.
  - by repeat constructor.
  - apply Forall_calls_bind;
      [apply uniform_call
      |intros; apply uniform_bind;
         [apply uniform_list_result_pages|intros; apply uniform_ret]
      |by repeat constructor|].
    intros _. apply Forall_calls_bind;
      [apply uniform_list_result_pages|intros; apply uniform_ret|apply IH|].
    intros. constructor.
  - by repeat constructor.
Qed.

Lemma uniform_evaluations_to_report config ev configuration_item result :
  uniform (evaluations_to_report config ev configuration_item result).
Proof.
  unfold evaluations_to_report.
  destruct (falsy result); [apply uniform_clean_up_old_evaluations|].
  destruct result.
  - apply uniform_ret.
  - apply uniform_bind; [apply uniform_lift|intros; apply uniform_ret].
  - apply uniform_clean_up_old_evaluations.
  - apply uniform_ret.
Qed.

Lemma calls_clean_up_old_evaluations_ok config latest ev :
  Forall (put_call_ok ev) (calls (clean_up_old_evaluations config latest ev)).
Proof.
  unfold clean_up_old_evaluations.
  apply Forall_calls_bind;
    [apply uniform_list_result_pages
    |intros; apply uniform_bind; [apply uniform_lift|intros; apply uniform_ret]
    |apply calls_list_result_pages_ok|].
  intros olds. apply Forall_calls_bind;
    [apply uniform_lift|intros; apply uniform_ret|constructor|].
  intros. constructor.
Qed.

Lemma calls_evaluations_to_report_ok config ev configuration_item result :
  Forall (put_call_ok ev)
         (calls (evaluations_to_report config ev configuration_item result)).
Proof.
  unfold evaluations_to_report.
  destruct (falsy result); [apply calls_clean_up_old_evaluations_ok|].
  destruct result.
  - constructor.
  - apply Forall_calls_bind;
      [apply uniform_lift|intros; apply uniform_ret|constructor|].
    intros. constructor.
  - apply calls_clean_up_old_evaluations_ok.
  - constructor.
Qed.

(** The calls of the submission loop, whatever the service answers. *)
Lemma submit_calls config result_token test_mode (evaluations : list evaluation) log :
  ∃ l, snd (submit config result_token test_mode evaluations log) = log ++ l
       ∧ Forall (λ c, ∃ batch,
                   c = PutEvaluations batch result_token test_mode
                   ∧ (1 ≤ List.length batch ≤ 100)%nat) l.
Proof.
  remember (List.length evaluations) as n eqn:Hn.
  revert evaluations log Hn.
  induction n as [n IH] using lt_wf_ind. intros evaluations log Hn.
  destruct evaluations as [|e rest].
  - simp submit. exists []. split; [by rewrite app_nil_r|constructor].
  - simp submit. rewrite bind_run. unfold call at 1.
    remember (e :: rest) as evs eqn:Hevs.
    assert (Hbatch : (1 ≤ List.length (take 100 evs) ≤ 100)%nat).
    { rewrite length_take. subst evs. cbn [List.length]. lia. }
    destruct (put_evaluations config (take 100 evs)) as [[]|err].
    + destruct (IH (List.length (drop 100 evs))) with (evaluations := drop 100 evs)
        (log := log ++ [PutEvaluations (take 100 evs) result_token test_mode])
        as (l & Hrun & Hall); [|reflexivity|].
      * rewrite length_drop. subst. simpl. lia.
      * exists (PutEvaluations (take 100 evs) result_token test_mode :: l).
        rewrite Hrun. split; [by rewrite <- app_assoc|].
        constructor; [|done]. by eexists.
    + exists [PutEvaluations (take 100 evs) result_token test_mode].
      split; [done|]. constructor; [|constructor]. by eexists.
Qed.

(** X24: whatever the result of the evaluation is and whatever the
    Config service answers, every [put_evaluations] call of the end of
    the handler carries the result token of the event, the test mode
    exactly when that token is TESTMODE, and between 1 and 100
    evaluations. *)
Theorem report_put_calls config ev configuration_item result log :
  ∃ l, snd (report config ev configuration_item result log) = log ++ l
       ∧ Forall (put_call_ok ev) l.
Proof.
  unfold report. rewrite bind_run.
  rewrite (uniform_evaluations_to_report config ev configuration_item result log).
  pose proof (calls_evaluations_to_report_ok config ev configuration_item result)
    as Hcalls.
  destruct (outcome _) as [evaluations|err].
  - destruct (submit_calls config (resultToken ev)
                (bool_decide (resultToken ev = "TESTMODE")) evaluations
                (log ++ calls (evaluations_to_report config ev
                                 configuration_item result)))
      as (l & -> & Hl).
    eexists. split; [by rewrite <- app_assoc|].
    apply Forall_app. split; [done|].
    eapply Forall_impl; [exact Hl|].
    intros c (batch & -> & Hlen). simpl. done.
  - eexists. split; [reflexivity|done].
Qed.

(** X25: a dict result is submitted alone, in one batch and without any
    look at the earlier results, when it has the four required fields;
    when it lacks one, or is empty, the handler goes on without it: a
    non-empty incomplete dict leads to no call at all. *)
Theorem report_dict_result config ev configuration_item (d : evaluation) log :
  (∀ batch, put_evaluations config batch = Ok ()) →
  (complete d →
   report config ev configuration_item (ResultDict d) log
   = (Ok [], log ++ [PutEvaluations [d] (resultToken ev)
                       (bool_decide (resultToken ev = "TESTMODE"))]))
  ∧ (d ≠ ∅ → ¬ complete d →
     report config ev configuration_item (ResultDict d) log = (Ok [], log)).
Proof.
  intros Hput. split.
  - intros Hd.
    assert (Hne : d ≠ ∅).
    { intros ->. apply complete_has_id in Hd as [x Hx].
      by rewrite lookup_empty in Hx. }
    unfold report, evaluations_to_report. simpl falsy.
    rewrite (bool_decide_eq_false_2 (d = ∅)) by done.
    rewrite (proj2 (missing_fields_false d) Hd).
    rewrite bind_run. simpl. simp submit.
    rewrite bind_run. unfold call at 1. simpl take. rewrite Hput.
    simpl drop. by simp submit.
  - intros Hne Hd. unfold report, evaluations_to_report. simpl falsy.
    rewrite (bool_decide_eq_false_2 (d = ∅)) by done.
    destruct (missing_fields d) eqn:Hm;
      [|by apply missing_fields_false in Hm].
    rewrite bind_run. simpl. by simp submit.
Qed.

(** X26: a string result needs the configuration item: with none, as
    for a scheduled notification, the handler raises TypeError and calls
    nothing; with an item that lacks resourceType, resourceId or
    configurationItemCaptureTime it raises KeyError; with the three
    fields it submits one evaluation made of them and of the string,
    without any look at the earlier results. *)
Theorem report_str_result config ev (s : string) log :
  s ≠ "" →
  report config ev None (ResultStr s) log = (Raise TypeError, log)
  ∧ (∀ ci : gmap string string,
       ci !! "resourceType" = None ∨ ci !! "resourceId" = None
       ∨ ci !! "configurationItemCaptureTime" = None →
       ∃ key, report config ev (Some ci) (ResultStr s) log
              = (Raise (KeyError (VStr key)), log))
  ∧ (∀ (ci : gmap string string) rt rid t,
       ci !! "resourceType" = Some rt → ci !! "resourceId" = Some rid →
       ci !! "configurationItemCaptureTime" = Some t →
       (∀ batch, put_evaluations config batch = Ok ()) →
       ∃ e, report config ev (Some ci) (ResultStr s) log
            = (Ok [], log ++ [PutEvaluations [e] (resultToken ev)
                                (bool_decide (resultToken ev = "TESTMODE"))])
            ∧ e !! "ComplianceResourceType" = Some rt
            ∧ e !! "ComplianceResourceId" = Some rid
            ∧ e !! "ComplianceType" = Some s
            ∧ e !! "OrderingTimestamp" = Some t
            ∧ e !! "Annotation" = None).
Proof.
  intros Hs.
  assert (Hrun : ∀ ci, report config ev ci (ResultStr s) log =
            match build_evaluation_from_config_item ci s with
            | Ok e => submit config (resultToken ev)
                        (bool_decide (resultToken ev = "TESTMODE")) [e] log
            | Raise err => (Raise err, log)
            end).
  { intros ci. unfold report, evaluations_to_report. simpl falsy.
    rewrite (bool_decide_eq_false_2 (s = "")) by done.
    rewrite !bind_run. unfold lift.
    by destruct (build_evaluation_from_config_item ci s). }
  split; [by rewrite Hrun|]. split.
  - intros ci Hmissing. rewrite Hrun. unfold build_evaluation_from_config_item.
    destruct (ci !! "resourceType"); [|by eexists].
    destruct (ci !! "resourceId"); [|by eexists].
    destruct (ci !! "configurationItemCaptureTime"); [|by eexists].
    naive_solver.
  - intros ci rt rid t Hrt Hrid Ht Hput. rewrite Hrun.
    unfold build_evaluation_from_config_item. rewrite Hrt, Hrid, Ht.
    eexists. split.
    + simp submit. rewrite bind_run. unfold call at 1. simpl take.
      rewrite Hput. simpl drop. by simp submit.
    + repeat split; by vm_compute.
Qed.

(** ** Ports *)

Lemma split_no_sep sep s : sep ∉ PyStr.chars s → PyStr.split sep s = [s].
Proof.
  induction s as [|a s IH]; simpl; [done|].
  rewrite not_elem_of_cons. intros [Hne Hs].
  rewrite bool_decide_eq_false_2 by congruence. by rewrite IH.
Qed.

Lemma split_app_sep sep s t :
  sep ∉ PyStr.chars s →
  PyStr.split sep (s +:+ String sep t) = s :: PyStr.split sep t.
Proof.
  induction s as [|a s IH]; simpl.
  - intros _. by rewrite bool_decide_eq_true_2.
  - rewrite not_elem_of_cons. intros [Hne Hs].
    rewrite bool_decide_eq_false_2 by congruence. by rewrite IH.
Qed.

Lemma last_app_colon s p :
  last (PyStr.chars p) ≠ Some "."%char →
  ∃ c, last (PyStr.chars (s +:+ String ":"%char p)) = Some c ∧ c ≠ "."%char.
Proof.
  intros Hp. rewrite chars_app. simpl.
  destruct (PyStr.chars p) as [|x l] using rev_ind.
  - exists ":"%char. by rewrite last_snoc.
  - rewrite last_snoc in Hp.
    exists x. rewrite app_comm_cons, app_assoc, last_snoc. split; congruence.
Qed.

(** X27: in mode FQDN, for a host and a port that hold no colon and do
    not end with a dot, the host being non-empty and the whole no longer
    than 255 characters: host:port is accepted exactly when the port is
    numeric and the host alone is accepted. *)
Theorem is_valid_hostname_port s p :
  ":"%char ∉ PyStr.chars s → ":"%char ∉ PyStr.chars p →
  s ≠ "" → last (PyStr.chars s) ≠ Some "."%char →
  last (PyStr.chars p) ≠ Some "."%char →
  (PyStr.len (s +:+ String ":"%char p) ≤ 255)%nat →
  is_valid_hostname (VStr (s +:+ String ":"%char p)) "FQDN" =
    if PyStr.isnumeric p then is_valid_hostname (VStr s) "FQDN" else Ok false.
Proof.
  intros Hs Hp Hne Hsdot Hpdot Hlen. simpl. unfold is_valid_hostname_str.
  assert (Hlens : (PyStr.len s ≤ 255)%nat).
  { rewrite !len_chars, chars_app, length_app in *. lia. }
  rewrite (proj2 (Nat.ltb_ge 255 _) Hlen), (proj2 (Nat.ltb_ge 255 _) Hlens).
  destruct (last_app_colon s p Hpdot) as (c & Hc & Hcdot).
  rewrite (proj2 (last_char_ok _ _) Hc). simpl.
  rewrite (bool_decide_eq_false_2 (c = "."%char)) by done.
  destruct (last_char_nonempty s Hne) as [c' Hc']. rewrite Hc'. simpl.
  apply last_char_ok in Hc'.
  rewrite (bool_decide_eq_false_2 (c' = "."%char)) by congruence.
  rewrite (split_app_sep ":"%char s p Hs), (split_no_sep ":"%char p Hp).
  rewrite (split_no_sep ":"%char s Hs). simpl.
  by destruct (PyStr.isnumeric p).
Qed.

(** * The further properties at the example inputs *)


Lemma is_valid_hostname_trailing_dot_witness :
  is_valid_hostname (VStr ("example.com" +:+ ".")) "DOMAIN"
  = is_valid_hostname (VStr "example.com") "DOMAIN".
Proof.
  apply (is_valid_hostname_trailing_dot "example.com" "DOMAIN");
    [discriminate|compute_done|unfold PyStr.len; simpl; lia].
Defined.

Lemma is_valid_hostname_port_witness :
  is_valid_hostname (VStr ("kdc.example.com" +:+ String ":"%char "88")) "FQDN"
  = if PyStr.isnumeric "88" then is_valid_hostname (VStr "kdc.example.com") "FQDN"
    else Ok false.
Proof.
  apply (is_valid_hostname_port "kdc.example.com" "88");
    [compute_done|compute_done|discriminate|compute_done|compute_done
    |unfold PyStr.len; simpl; lia].
Defined.

Lemma evaluate_parameters_sound_witness :
  PyStr.isupper "AD.DOMAIN.COM" = true
  ∧ is_valid_hostname (VStr "AD.DOMAIN.COM") "DOMAIN" = Ok true.
Proof.
  assert (Hvalid : evaluate_parameters example_repr (example_parameters 24)
                   = Ok (example_parameters 24)) by (vm_compute; reflexivity).
  destruct (evaluate_parameters_sound example_repr (example_parameters 24)
              (example_parameters 24) Hvalid) as (_ & Hrealm & _).
  apply (Hrealm (VStr "AD.DOMAIN.COM")). reflexivity.
Defined.

Lemma no_security_configuration_witness :
  ∃ e, evaluate_cluster example_repr unattached_client example_event ∅
         {| Id := "j-3" |} []
       = (Ok e, [DescribeCluster "j-3"])
       ∧ e !! "ComplianceResourceId" = Some "j-3"
       ∧ e !! "ComplianceType" = Some "NON_COMPLIANT"
       ∧ e !! "Annotation" = Some "No Security Configuration is attached.".
Proof.
  refine (no_security_configuration example_repr unattached_client example_event
            ∅ {| Id := "j-3" |}
            {| State := "RUNNING"; SecurityConfiguration := None |} [] _ _ _);
    [reflexivity|compute_done|reflexivity].
Defined.

Lemma kerberos_missing_non_compliant_witness :
  ∃ e, fst (evaluate_cluster example_repr
              (client_with_document (VDict {[ "EncryptionConfiguration" := VDict ∅ ]}))
              example_event (example_parameters 24) {| Id := "j-1" |} []) = Ok e
       ∧ e !! "ComplianceResourceId" = Some "j-1"
       ∧ e !! "ComplianceType" = Some "NON_COMPLIANT"
       ∧ e !! "Annotation" =
           Some "Kerberos Authentication is not enabled in the Security Configuration.".
Proof.
  refine (kerberos_missing_non_compliant example_repr
            (client_with_document (VDict {[ "EncryptionConfiguration" := VDict ∅ ]}))
            example_event (example_parameters 24)
            {[ "EncryptionConfiguration" := VDict ∅ ]} {| Id := "j-1" |}
            {| State := "RUNNING"; SecurityConfiguration := Some "sc" |}
            "sc" [] _ _ _ _ _);
    [reflexivity|compute_done|reflexivity|reflexivity|left; reflexivity].
Defined.

Lemma cross_realm_missing_non_compliant_witness :
  ∃ e, fst (evaluate_cluster example_repr
              (client_with_document
                 (document_of_block {[ "TicketLifetimeInHours" := VInt 10 ]}))
              example_event ∅ {| Id := "j-1" |} []) = Ok e
       ∧ e !! "ComplianceResourceId" = Some "j-1"
       ∧ e !! "ComplianceType" = Some "NON_COMPLIANT"
       ∧ e !! "Annotation" =
           Some "CrossRealmTrustConfiguration is not configured in security configuration.".
Proof.
  refine (cross_realm_missing_non_compliant example_repr
            (client_with_document
               (document_of_block {[ "TicketLifetimeInHours" := VInt 10 ]}))
            example_event ∅ {[ "TicketLifetimeInHours" := VInt 10 ]}
            {| Id := "j-1" |}
            {| State := "RUNNING"; SecurityConfiguration := Some "sc" |}
            "sc" (document_of_block {[ "TicketLifetimeInHours" := VInt 10 ]}) []
            _ _ _ _ _ _ _);
    [reflexivity|compute_done|reflexivity|reflexivity|reflexivity|reflexivity
    |reflexivity].
Defined.

(** The realm matches, the domain does not, the KDC server does not
    either: the annotation is the one of Domain. *)
Lemma cross_realm_checks_first_mismatch_witness :
  cross_realm_checks example_repr
    {[ "Realm" := VStr "AD.DOMAIN.COM"; "Domain" := VStr "other.example.com";
       "KdcServer" := VStr "kdc.example.com" ]}
    example_event "j-1" (VDict example_block)
  = Ok (non_compliant "j-1" example_event
          "Domain is not equal to the specified Rule parameter Domain.").
Proof.
  refine (cross_realm_checks_first_mismatch example_repr
            {[ "Realm" := VStr "AD.DOMAIN.COM"; "Domain" := VStr "other.example.com";
               "KdcServer" := VStr "kdc.example.com" ]}
            example_block example_cross_realm example_event "j-1" _ _);
    [reflexivity|].
  intros key Hin _.
  repeat (apply elem_of_cons in Hin as [->|Hin]);
    [by eexists..|by apply elem_of_nil in Hin].
Defined.

Lemma evaluate_cluster_wellformed_witness :
  complete (build_evaluation "j-1" "COMPLIANT" example_event
              DEFAULT_RESOURCE_TYPE None)
  ∧ build_evaluation "j-1" "COMPLIANT" example_event DEFAULT_RESOURCE_TYPE None
      !! "ComplianceResourceType" = Some "AWS::EMR::Cluster".
Proof.
  destruct (evaluate_cluster_wellformed example_repr example_client example_event
              (example_parameters 5) {| Id := "j-1" |}
              (build_evaluation "j-1" "COMPLIANT" example_event
                 DEFAULT_RESOURCE_TYPE None))
    as (Hcomplete & Htype & _); [reflexivity|].
  by split.
Defined.

Lemma evaluate_compliance_fails_fast_witness :
  outcome (evaluate_compliance example_repr failing_client example_event ∅)
  = Raise (ClientError "AccessDeniedException")
  ∧ calls (evaluate_compliance example_repr failing_client example_event ∅)
    = [ListClusters None; DescribeCluster "j-1";
       DescribeSecurityConfiguration "kerberos-sc"; DescribeCluster "j-2"].
Proof.
  refine (evaluate_compliance_fails_fast example_repr failing_client example_event
            ∅ [ {| Id := "j-1" |} ] {| Id := "j-2" |} [ {| Id := "j-3" |} ]
            (ClientError "AccessDeniedException") _ _ _);
    [reflexivity| |reflexivity].
  constructor; [|constructor]. eexists. reflexivity.
Defined.

Lemma clean_up_old_evaluations_key_error_witness :
  fst (clean_up_old_evaluations example_config [∅] example_event [])
  = Raise (KeyError (VStr "ComplianceResourceId")).
Proof.
  apply (proj1 (clean_up_old_evaluations_key_error example_config example_event
                  [∅] [ {| ResourceId := "j-0" |}; {| ResourceId := "j-1" |} ]
                  [] eq_refl)).
  split; [discriminate|]. exists ∅. split; [left|reflexivity].
Defined.

Lemma clean_up_old_evaluations_unchanged_witness :
  fst (clean_up_old_evaluations example_config
         [build_evaluation "j-0" "COMPLIANT" example_event DEFAULT_RESOURCE_TYPE None;
          build_evaluation "j-1" "COMPLIANT" example_event DEFAULT_RESOURCE_TYPE None]
         example_event [])
  = Ok [build_evaluation "j-0" "COMPLIANT" example_event DEFAULT_RESOURCE_TYPE None;
        build_evaluation "j-1" "COMPLIANT" example_event DEFAULT_RESOURCE_TYPE None].
Proof.
  apply (clean_up_old_evaluations_unchanged example_config example_event _
           [ {| ResourceId := "j-0" |}; {| ResourceId := "j-1" |} ] [] eq_refl).
  - constructor; [by eexists|]. constructor; [by eexists|constructor].
  - intros o Ho.
    repeat (apply elem_of_cons in Ho as [->|Ho]);
      [compute_done..|by apply elem_of_nil in Ho].
Defined.

Lemma submit_batches_witness :
  ∃ l, submit example_config "TESTMODE" true
         [build_evaluation "j-1" "COMPLIANT" example_event DEFAULT_RESOURCE_TYPE None]
         [] = (Ok [], [] ++ l)
       ∧ submitted l
         = [build_evaluation "j-1" "COMPLIANT" example_event DEFAULT_RESOURCE_TYPE None]
       ∧ List.length l = 1%nat
       ∧ Forall (λ c, ∃ batch,
                   c = PutEvaluations batch "TESTMODE" true
                   ∧ (1 ≤ List.length batch ≤ 100)%nat) l.
Proof.
  exact (submit_batches example_config "TESTMODE" true
           [build_evaluation "j-1" "COMPLIANT" example_event
              DEFAULT_RESOURCE_TYPE None] [] (λ _, eq_refl)).
Defined.

Lemma submit_rejected_witness :
  submit rejecting_config "token" false
    [build_evaluation "j-1" "COMPLIANT" example_event DEFAULT_RESOURCE_TYPE None] []
  = (Raise (ClientError "ThrottlingException"),
     [PutEvaluations
        [build_evaluation "j-1" "COMPLIANT" example_event DEFAULT_RESOURCE_TYPE None]
        "token" false]).
Proof.
  refine (submit_rejected rejecting_config "token" false []
            [build_evaluation "j-1" "COMPLIANT" example_event
               DEFAULT_RESOURCE_TYPE None]
            (ClientError "ThrottlingException") [] _ _ _);
    [constructor|discriminate|reflexivity].
Defined.

Lemma report_falsy_result_witness :
  ∃ account,
    fst (report example_config example_event None ResultNone []) = Ok []
    ∧ submitted (snd (report example_config example_event None ResultNone []))
      = [not_applicable example_event {| ResourceId := "j-0" |};
         not_applicable example_event {| ResourceId := "j-1" |};
         account]
    ∧ account !! "ComplianceResourceType" = Some "AWS::::Account"
    ∧ account !! "ComplianceResourceId" = Some "123456789012".
Proof.
  destruct (report_falsy_result example_config example_event None ResultNone
              [ {| ResourceId := "j-0" |}; {| ResourceId := "j-1" |} ] []
              eq_refl eq_refl (λ _, eq_refl))
    as (account & Hfst & Hsub & Htype & Hid & _).
  exists account. split; [exact Hfst|]. split; [exact Hsub|]. by split.
Defined.

Lemma evaluate_compliance_nothing_dropped_witness :
  ∃ evaluations,
    outcome (evaluate_compliance example_repr example_client example_event
               (example_parameters 24)) = Ok (Some evaluations)
    ∧ evaluations ≠ []
    ∧ falsy (ResultList evaluations) = false
    ∧ complete_evaluations evaluations = evaluations.
Proof.
  eexists. split; [reflexivity|].
  apply (evaluate_compliance_nothing_dropped example_repr example_client
           example_event (example_parameters 24)).
  reflexivity.
Defined.

(** A realm in lower case. *)
Lemma lambda_handler_invalid_parameter_witness :
  ∃ r, lambda_handler example_repr example_error_str example_error_message
         example_client example_config example_event
         (Some {[ "Realm" := VStr "ad.domain.com" ]}) None []
       = (Ok (ErrorResponse r), [])
       ∧ customerErrorCode r = Some "InvalidParameterValueException"
       ∧ customerErrorMessage r = Some "Realm".
Proof.
  destruct (lambda_handler_invalid_parameter example_repr example_error_str
              example_error_message example_client example_config example_event
              (Some {[ "Realm" := VStr "ad.domain.com" ]}) None "Realm" [])
    as (r & Hrun & Hcode & Hmessage & _); [reflexivity|].
  exists r. by repeat split.
Defined.

Lemma lambda_handler_client_error_witness :
  ∃ r log',
    lambda_handler example_repr example_error_str example_error_message
      failing_client example_config example_event None None []
    = (Ok (ErrorResponse r), log')
    ∧ submitted log' = []
    ∧ customerErrorCode r = Some "AccessDeniedException"
    ∧ customerErrorMessage r = Some "The request was refused.".
Proof.
  destruct (lambda_handler_client_error example_repr example_error_str
              example_error_message failing_client example_config example_event
              None None ∅ "AccessDeniedException" [])
    as (r & log' & Hrun & Hsub & _ & _ & Hcustomer); [reflexivity|reflexivity|].
  exists r, log'. split; [exact Hrun|]. split; [exact Hsub|].
  apply Hcustomer. reflexivity.
Defined.

(** The earlier results are about j-0 and j-1; the clusters are j-1 and
    j-2. *)
Lemma lambda_handler_submits_witness :
  ∃ log',
    lambda_handler example_repr example_error_str example_error_message
      example_client example_config example_event
      (Some (example_parameters 24)) None []
    = (Ok (Returned []), log')
    ∧ submitted log'
      = [not_applicable example_event {| ResourceId := "j-0" |};
         non_compliant "j-1" example_event
           "TicketLifetimeInHours is smaller than the specified Rule parameter TicketLifetimeInHours.";
         build_evaluation "j-2" "NOT_APPLICABLE" example_event
           DEFAULT_RESOURCE_TYPE None].
Proof.
  destruct (lambda_handler_submits example_repr example_error_str
              example_error_message example_client example_config example_event
              (Some (example_parameters 24)) None (example_parameters 24)
              (Some [non_compliant "j-1" example_event
                       "TicketLifetimeInHours is smaller than the specified Rule parameter TicketLifetimeInHours.";
                     build_evaluation "j-2" "NOT_APPLICABLE" example_event
                       DEFAULT_RESOURCE_TYPE None])
              [ {| ResourceId := "j-0" |}; {| ResourceId := "j-1" |} ] [])
    as (log' & Hrun & Hsub);
    [vm_compute; reflexivity|reflexivity|reflexivity|reflexivity|].
  exists log'. split; [exact Hrun|]. exact Hsub.
Defined.

(** The empty Domain: the IndexError leaves the handler. *)
Lemma lambda_handler_uncaught_witness :
  lambda_handler example_repr example_error_str example_error_message
    example_client example_config example_event
    (Some {[ "Domain" := VStr "" ]}) None []
  = (Raise IndexError, []).
Proof.
  apply (proj1 (lambda_handler_uncaught example_repr example_error_str
                  example_error_message example_client example_config
                  example_event (Some {[ "Domain" := VStr "" ]}) None
                  IndexError [] (λ _, ltac:(discriminate))
                  (λ _, ltac:(discriminate)))).
  reflexivity.
Defined.

Lemma report_dict_result_witness :
  report example_config example_event None
    (ResultDict (build_evaluation "j-1" "COMPLIANT" example_event
                   DEFAULT_RESOURCE_TYPE None)) []
  = (Ok [],
     [PutEvaluations
        [build_evaluation "j-1" "COMPLIANT" example_event DEFAULT_RESOURCE_TYPE None]
        "TESTMODE" true]).
Proof.
  apply (proj1 (report_dict_result example_config example_event None
                  (build_evaluation "j-1" "COMPLIANT" example_event
                     DEFAULT_RESOURCE_TYPE None) [] (λ _, eq_refl))).
  apply build_evaluation_complete.
Defined.

Lemma report_str_result_witness :
  report example_config example_event None (ResultStr "NOT_APPLICABLE") []
  = (Raise TypeError, []).
Proof.
  apply (proj1 (report_str_result example_config example_event "NOT_APPLICABLE" []
                  ltac:(discriminate))).
Defined.

Lemma evaluate_parameters_integer_lifetime_witness :
  evaluate_parameters example_repr
    {[ "TicketLifetimeInHours" := VInt (-1); "Domain" := VStr "" ]}
  = Raise (ValueError "TicketLifetimeInHours")
  ∧ evaluate_parameters example_repr {[ "TicketLifetimeInHours" := VInt 24 ]}
    = Ok {[ "TicketLifetimeInHours" := VInt 24 ]}.
Proof.
  split.
  - apply (proj1 (evaluate_parameters_integer_lifetime example_repr (-1)));
      [reflexivity|lia].
  - apply (proj2 (evaluate_parameters_integer_lifetime example_repr 24)). lia.
Defined.

Lemma get_all_cluster_pages_witness :
  fst (get_all_cluster example_client [])
  = Ok [ {| Id := "j-1" |}; {| Id := "j-2" |} ]
  ∧ List.length (page_calls None (list_clusters example_client)) = 2%nat.
Proof.
  apply (proj2 (get_all_cluster_pages example_client [])
           [[ {| Id := "j-1" |} ]; [ {| Id := "j-2" |} ]]).
  reflexivity.
Defined.
